(** * server/index.js: the resilience layer of the submission / AI-proxy service

    A shallow embedding of [src/server/index.js] and the properties of its
    start-up, port selection, shutdown, bounded outbound call and request
    handlers.

    The program is a Node.js script: everything it does goes through the
    runtime (file system, libsql client, net/http servers, timers, fetch).
    The embedding therefore has three layers:

    - JavaScript values and the operators the script applies to them;
    - a [world]: the module-level variables of the script, the state of the
      runtime (clock, armed timers, abort signals, the store file, the http
      server) and an [environment] of oracles that answer for everything
      outside the process (does the bind succeed, does the statement fail,
      how does the upstream behave);
    - the script itself, function by function, in a small monad [M] over the
      world whose completions are the JavaScript ones: a value, a thrown
      exception, [process.exit], or an [await] that never resumes. *)

From Stdlib Require Import ZArith Ascii String List Sorting.Sorted Lia.
From stdpp Require Import base option list gmap strings sorting pretty.

#[local] Set Warnings "-register-all".
#[local] Open Scope string_scope.
#[local] Open Scope Z_scope.
#[local] Open Scope list_scope.

(** ** JavaScript values *)

(** Numbers of the model are the integer-valued ones (ports, ids, status
    codes, milliseconds) and [NaN]; objects are finite maps from property
    names to values, as [JSON.parse] builds them. *)
Inductive jsval : Type :=
| VUndefined
| VNull
| VNaN
| VBool (b : bool)
| VNum (n : Z)
| VStr (s : string)
| VArr (items : list jsval)
| VObj (fields : gmap string jsval).

(** An [Error] object: [error.name], [error.message] and, for system
    errors, [error.code]. *)
Record js_error : Type := mk_error {
  err_name : string;
  err_message : string;
  err_code : option string
}.

Definition Error (message : string) : js_error :=
  {| err_name := "Error"; err_message := message; err_code := None |}.

Definition TypeError (message : string) : js_error :=
  {| err_name := "TypeError"; err_message := message; err_code := None |}.

Definition RangeError (message : string) (code : string) : js_error :=
  {| err_name := "RangeError"; err_message := message; err_code := Some code |}.

(** What [fetch] rejects with once its signal is aborted. *)
Definition AbortError : js_error :=
  {| err_name := "AbortError"; err_message := "This operation was aborted";
     err_code := None |}.

(** ToString, as template literals and [+] apply it. *)
Fixpoint to_string (v : jsval) : string :=
  match v with
  | VUndefined => "undefined"
  | VNull => "null"
  | VNaN => "NaN"
  | VBool true => "true"
  | VBool false => "false"
  | VNum n => pretty n
  | VStr s => s
  | VArr items =>
      String.concat ","
        (map (fun x => match x with
                       | VUndefined | VNull => ""
                       | _ => to_string x
                       end) items)
  | VObj _ => "[object Object]"
  end.

(** ToBoolean. *)
Definition truthy (v : jsval) : bool :=
  match v with
  | VUndefined | VNull | VNaN => false
  | VBool b => b
  | VNum n => negb (n =? 0)
  | VStr s => negb (String.eqb s "")
  | VArr _ | VObj _ => true
  end.

(** [a || b]. *)
Definition js_or (a b : jsval) : jsval := if truthy a then a else b.

(** ToPrimitive: arrays and objects become their string. *)
Definition to_primitive (v : jsval) : jsval :=
  match v with
  | VArr _ | VObj _ => VStr (to_string v)
  | _ => v
  end.

(** ToNumber on the primitives that are not strings ([None] is NaN). *)
Definition to_number (v : jsval) : option Z :=
  match v with
  | VNull => Some 0
  | VBool b => Some (if b then 1 else 0)
  | VNum n => Some n
  | _ => None
  end.

(** [a + b]: concatenation as soon as one operand is a string, numeric
    addition otherwise. *)
Definition js_add (a b : jsval) : jsval :=
  let a' := to_primitive a in
  let b' := to_primitive b in
  match a', b' with
  | VStr s, _ => VStr (s +:+ to_string b')
  | _, VStr t => VStr (to_string a' +:+ t)
  | _, _ =>
      match to_number a', to_number b' with
      | Some x, Some y => VNum (x + y)
      | _, _ => VNaN
      end
  end.

(** [process.env.X]: a string when the variable is set, [undefined]
    otherwise. *)
Definition env_value (x : option string) : jsval :=
  match x with
  | Some s => VStr s
  | None => VUndefined
  end.

(** *** Decimal numerals *)

Definition digit_of (c : ascii) : option Z :=
  let n := Z.of_N (Ascii.N_of_ascii c) in
  if (48 <=? n) && (n <=? 57) then Some (n - 48) else None.

Fixpoint digits_value (acc : Z) (s : string) : option Z :=
  match s with
  | EmptyString => Some acc
  | String c rest =>
      match digit_of c with
      | Some d => digits_value (10 * acc + d) rest
      | None => None
      end
  end.

(** The value of a plain decimal numeral: one digit or more, nothing
    else. *)
Definition number_of_string (s : string) : option Z :=
  match s with
  | EmptyString => None
  | _ => digits_value 0 s
  end.

(** *** [Number(s)]: StringToNumber *)

(** The result of [Number(s)], before it is rounded to a double:
    [NDecimal negative m e] stands for the exact value
    [(-1)^negative * m * 10^e] with [0 <= m]. *)
Inductive js_number : Type :=
| NNaN
| NInfinity (negative : bool)
| NDecimal (negative : bool) (significand : Z) (exponent : Z).

(** Strings of the model are sequences of code units below 256. The
    WhiteSpace and LineTerminator code units among them: TAB, LF, VT, FF,
    CR, SP and NBSP. *)
Definition is_white_space (c : ascii) : bool :=
  let n := Z.of_N (Ascii.N_of_ascii c) in
  ((9 <=? n) && (n <=? 13)) || (n =? 32) || (n =? 160).

Fixpoint skip_white_space (s : string) : string :=
  match s with
  | EmptyString => EmptyString
  | String c rest => if is_white_space c then skip_white_space rest else s
  end.

(** [s.trim().length === 0] *)
Fixpoint blank (s : string) : bool :=
  match s with
  | EmptyString => true
  | String c rest => is_white_space c && blank rest
  end.

(** The value of [c] as a digit in [base] (2, 8, 10 or 16). *)
Definition digit_in (base : Z) (c : ascii) : option Z :=
  let n := Z.of_N (Ascii.N_of_ascii c) in
  let d := if (48 <=? n) && (n <=? 57) then n - 48
           else if (97 <=? n) && (n <=? 102) then n - 87
           else if (65 <=? n) && (n <=? 70) then n - 55
           else base in
  if d <? base then Some d else None.

(** The longest run of digits at the start of [s]: its value on top of
    [acc], the number of digits added to [count], and what follows. *)
Fixpoint read_digits (base acc count : Z) (s : string) : Z * Z * string :=
  match s with
  | EmptyString => (acc, count, s)
  | String c rest =>
      match digit_in base c with
      | Some d => read_digits base (base * acc + d) (count + 1) rest
      | None => (acc, count, s)
      end
  end.

(** An optional sign: whether it is [-], and what follows. *)
Definition strip_sign (s : string) : bool * string :=
  match s with
  | String "-" rest => (true, rest)
  | String "+" rest => (false, rest)
  | _ => (false, s)
  end.

(** ExponentPart, if [s] starts with one: [e] or [E], an optional sign and
    at least one digit. Otherwise the exponent is 0 and nothing is
    consumed. *)
Definition read_exponent (s : string) : Z * string :=
  match s with
  | String c rest =>
      if Ascii.eqb c "e" || Ascii.eqb c "E" then
        let '(negative, digits) := strip_sign rest in
        let '(e, count, rest') := read_digits 10 0 0 digits in
        if count =? 0 then (0, s) else (if negative then - e else e, rest')
      else (0, s)
  | EmptyString => (0, s)
  end.

(** The digits of an unsigned decimal literal at the start of [s], in one
    of the forms [12], [12.], [12.5] and [.5], each with an optional
    exponent: significand, decimal exponent, and what follows. *)
Definition read_unsigned_decimal (s : string) : option (Z * Z * string) :=
  let '(int_part, n1, rest1) := read_digits 10 0 0 s in
  let '(m, n2, rest2) :=
    match rest1 with
    | String "." fraction => read_digits 10 int_part 0 fraction
    | _ => (int_part, 0, rest1)
    end in
  if n1 + n2 =? 0 then None
  else
    let '(e, rest3) := read_exponent rest2 in
    Some (m, e - n2, rest3).

(** NonDecimalIntegerLiteral at the start of [s]: [0x], [0o] or [0b] (in
    either case) and at least one digit of that base. *)
Definition read_non_decimal (s : string) : option (Z * string) :=
  match s with
  | String "0" (String c rest) =>
      let base := if Ascii.eqb c "x" || Ascii.eqb c "X" then 16
                  else if Ascii.eqb c "o" || Ascii.eqb c "O" then 8
                  else if Ascii.eqb c "b" || Ascii.eqb c "B" then 2
                  else 0 in
      let '(v, count, rest') := read_digits base 0 0 rest in
      if (base =? 0) || (count =? 0) then None else Some (v, rest')
  | _ => None
  end.

(** What follows the word [Infinity], if [s] starts with it. *)
Definition strip_Infinity (s : string) : option string :=
  match s with
  | String "I" (String "n" (String "f" (String "i" (String "n"
      (String "i" (String "t" (String "y" rest))))))) => Some rest
  | _ => None
  end.

(** [Number(s)] on a string: white space around a numeric literal, which
    is a signed decimal literal, a signed [Infinity] or an unsigned literal
    in base 16, 8 or 2. White space alone is 0; anything else is NaN. *)
Definition StringToNumber (s : string) : js_number :=
  match skip_white_space s with
  | EmptyString => NDecimal false 0 0
  | literal =>
      match read_non_decimal literal with
      | Some (v, rest) => if blank rest then NDecimal false v 0 else NNaN
      | None =>
          let '(negative, unsigned) := strip_sign literal in
          match strip_Infinity unsigned with
          | Some rest => if blank rest then NInfinity negative else NNaN
          | None =>
              match read_unsigned_decimal unsigned with
              | Some (m, e, rest) => if blank rest then NDecimal negative m e else NNaN
              | None => NNaN
              end
          end
      end
  end.

(** A number is a double: the exact value rounded to the nearest one, ties
    to the even significand. Every integer [n] of 0..65535 is a double with
    an even significand, so the values that round to [n] are those within
    half the gap to the next double on either side, ends included. The gap
    above [n] is [2^(k-52)] for [2^k <= n < 2^(k+1)], the gap below a power
    of two is half of that, and around 0 both are [2^-1074]. The two
    functions give [j] with half the gap equal to [2^-j]. *)
Definition half_gap_above (n : Z) : Z :=
  if n =? 0 then 1075 else 53 - Z.log2 n.

Definition half_gap_below (n : Z) : Z :=
  if n =? 0 then 1075
  else if n =? 2 ^ Z.log2 n then 54 - Z.log2 n
  else 53 - Z.log2 n.

(** The integer of 0..65535 that the number is, if it is one ([-0]
    counts as 0). *)
Definition port_number (x : js_number) : option Z :=
  match x with
  | NNaN | NInfinity _ => None
  | NDecimal negative m e =>
      if 0 <=? e then
        let v := m * 10 ^ e in
        if v =? 0 then Some 0
        else if negative then None
        else if v <=? 65535 then Some v else None
      else
        let D := 10 ^ (- e) in
        let sm := if negative then - m else m in
        let n := (2 * sm + D) `div` (2 * D) in
        if (0 <=? n) && (n <=? 65535)
           && ((sm - n * D) * 2 ^ half_gap_above n <=? D)
           && ((n * D - sm) * 2 ^ half_gap_below n <=? D)
        then Some n else None
  end.

(** [x >= 0], which holds for [-0]. *)
Definition non_negative (x : js_number) : bool :=
  match x with
  | NNaN => false
  | NInfinity negative => negb negative
  | NDecimal negative _ _ => negb negative || bool_decide (port_number x = Some 0)
  end.

(** ** The world outside the script *)

(** *** Storage: the [user_data] table of the embedded store *)

(** A value as a data column of [user_data] holds it, and as the client
    hands it back: a REAL comes back as a number, a TEXT as a string. Two
    conversions of SQLite are named and not evaluated: [SqlRealOfText s] is
    the REAL that SQLite reads in the numeric text [s], and
    [SqlTextOfReal n] the text it writes for the REAL [n]. *)
Inductive sql_value : Type :=
| SqlNull
| SqlReal (n : Z)
| SqlText (s : string)
| SqlRealOfText (s : string)
| SqlTextOfReal (n : Z).

(** A row of [user_data]: [budget] is a REAL column, [city],
    [investment_type] and [target_audience] are TEXT columns, and
    [created_at] is the CURRENT_TIMESTAMP of the insert, in whole
    seconds. *)
Record row : Type := mk_row {
  row_id : Z;
  row_budget : sql_value;
  row_city : sql_value;
  row_investment_type : sql_value;
  row_target_audience : sql_value;
  row_created_at : Z
}.

(** The table and its AUTOINCREMENT sequence (largest rowid handed out). *)
Record table : Type := mk_table {
  tbl_rows : list row;
  tbl_seq : Z
}.

(** Contents of a store file: bytes that are no database, or a database in
    which the table exists or not. *)
Inductive db_image : Type :=
| Garbage
| Database (user_data : option table).

(** The statements the script sends, one constructor per SQL text. *)
Inductive stmt : Type :=
| Select1
| CreateUserData
| InsertUserData (args : list jsval)
| SelectById (args : list jsval)
| SelectAllByCreatedDesc.

(** A libsql result set: [rows] and [lastInsertRowid]. (The single row of
    [SELECT 1] is not a [user_data] row and nobody reads it: it is left
    out.) *)
Record result_set : Type := mk_result_set {
  rs_rows : list row;
  rs_lastInsertRowid : jsval
}.

(** *** Network *)

(** What [listen(port)] resolves its argument to. *)
Inductive listen_target : Type :=
| TcpPort (p : Z)
| Pipe (path : string).

(** The asynchronous outcome of a bind: the ['listening'] event, or the
    ['error'] event with its error. *)
Inductive bind_outcome : Type :=
| BindListening
| BindError (e : js_error).

(** [JSON.stringify(v)], kept as the value it serialises. *)
Inductive json_text : Type :=
| JSON_stringify (v : jsval).

(** An outbound HTTP request as it goes on the wire. *)
Record wire_request : Type := mk_wire_request {
  wr_url : string;
  wr_method : string;
  wr_headers : list (string * string);
  wr_body : json_text
}.

(** Reading the body of an upstream response with [response.json()]. *)
Inductive body_outcome : Type :=
| BodyJson (data : jsval)
| BodyError (e : js_error)
| BodyHangs.

Record response : Type := mk_response {
  resp_status : Z;
  resp_body : body_outcome
}.

(** [response.ok]: the status is in the range 200-299. *)
Definition resp_ok (r : response) : bool :=
  (200 <=? resp_status r) && (resp_status r <=? 299).

(** How the upstream answers a request when nobody aborts it: response
    headers after [latency] milliseconds, a network failure after
    [latency] milliseconds, or nothing, ever. *)
Inductive fetch_behaviour : Type :=
| Responds (latency : Z) (r : response)
| Fails (latency : Z) (e : js_error)
| Hangs.

(** *** The environment: everything the process does not decide *)

Record environment : Type := mk_environment {
  (** [process.env.PORT] *)
  env_PORT : option string;
  (** [createClient] throws this when it opens the given file contents *)
  open_fault : option db_image -> option js_error;
  (** a statement fails with this whatever the store holds (I/O, lock) *)
  exec_fault : stmt -> option js_error;
  (** [fs.unlinkSync] throws this *)
  unlink_fault : option js_error;
  (** outcome of binding the transient test listener *)
  probe_bind : listen_target -> bind_outcome;
  (** outcome of binding the real listener *)
  real_bind : listen_target -> bind_outcome;
  (** behaviour of the upstream service *)
  upstream : wire_request -> fetch_behaviour
}.

(** *** Observable effects *)

(** What a response carries: a JSON value, or rows of the table. *)
Inductive payload : Type :=
| PJson (v : jsval)
| PRow (r : option row)
| PRows (rs : list row).

Inductive effect : Type :=
| ELog (line : string)
| EError (line : string) (e : js_error)
| EUnlink (path : string)
| EExecute (s : stmt)
| EProbe (t : listen_target)
| EProbeClosed (t : listen_target)
| EListen (t : listen_target)
| EStopListening
| EAccept
| ERefuse
| EFetch (r : wire_request)
| ERespond (status : Z) (body : payload)
| EUncaught (e : js_error)
| EExit (code : Z).

(** *** Runtime objects *)

(** A libsql client: the handle [createClient] returns. *)
Record client : Type := mk_client { client_url : string }.

(** The closure handed to [server.close] (lines 98-101): log, then
    [process.exit(0)]. *)
Inductive callback : Type :=
| GracefulExit.

(** The http server: what it listens on, whether it still accepts, its open
    connections (each carries at most one request in flight) and the
    listeners waiting for ['close']. *)
Record http_server : Type := mk_http_server {
  srv_target : listen_target;
  srv_listening : bool;
  srv_connections : nat;
  srv_on_close : list callback
}.

(** An armed timer. The only timer callback of the script is
    [() => controller.abort()], so a timer is its id, its due time and the
    controller it aborts. *)
Record timer : Type := mk_timer {
  timer_id : nat;
  timer_due : Z;
  timer_aborts : nat
}.

(** The three route handlers of the script. *)
Inductive handler : Type :=
| SaveUserData
| GetUserData
| ProxyAI.

(** ** The world *)

Record world : Type := mk_world {
  env : environment;
  (** module-level [let db] and [let server] *)
  db : option client;
  server : option http_server;
  (** routes registered on [app] *)
  routes : list (string * string * handler);
  (** the file system: store files by path *)
  files : gmap string db_image;
  (** milliseconds *)
  clock : Z;
  timers : list timer;
  (** next fresh id for timers and abort controllers *)
  fresh : nat;
  (** controllers whose signal is aborted *)
  aborted : gset nat;
  (** rejections of promises that nobody awaits *)
  unhandled : list js_error;
  (** everything observable, oldest first *)
  trace : list effect
}.

Definition set_db (x : option client) (w : world) : world :=
  mk_world (env w) x (server w) (routes w) (files w) (clock w) (timers w)
    (fresh w) (aborted w) (unhandled w) (trace w).

Definition set_server (x : option http_server) (w : world) : world :=
  mk_world (env w) (db w) x (routes w) (files w) (clock w) (timers w)
    (fresh w) (aborted w) (unhandled w) (trace w).

Definition set_routes (x : list (string * string * handler)) (w : world) : world :=
  mk_world (env w) (db w) (server w) x (files w) (clock w) (timers w)
    (fresh w) (aborted w) (unhandled w) (trace w).

Definition set_files (x : gmap string db_image) (w : world) : world :=
  mk_world (env w) (db w) (server w) (routes w) x (clock w) (timers w)
    (fresh w) (aborted w) (unhandled w) (trace w).

Definition set_clock (x : Z) (w : world) : world :=
  mk_world (env w) (db w) (server w) (routes w) (files w) x (timers w)
    (fresh w) (aborted w) (unhandled w) (trace w).

Definition set_timers (x : list timer) (w : world) : world :=
  mk_world (env w) (db w) (server w) (routes w) (files w) (clock w) x
    (fresh w) (aborted w) (unhandled w) (trace w).

Definition set_fresh (x : nat) (w : world) : world :=
  mk_world (env w) (db w) (server w) (routes w) (files w) (clock w) (timers w)
    x (aborted w) (unhandled w) (trace w).

Definition set_aborted (x : gset nat) (w : world) : world :=
  mk_world (env w) (db w) (server w) (routes w) (files w) (clock w) (timers w)
    (fresh w) x (unhandled w) (trace w).

Definition set_unhandled (x : list js_error) (w : world) : world :=
  mk_world (env w) (db w) (server w) (routes w) (files w) (clock w) (timers w)
    (fresh w) (aborted w) x (trace w).

Definition set_trace (x : list effect) (w : world) : world :=
  mk_world (env w) (db w) (server w) (routes w) (files w) (clock w) (timers w)
    (fresh w) (aborted w) (unhandled w) x.

(** ** The monad of the script *)

(** How a piece of JavaScript completes: normally with a value, by
    throwing, by [process.exit(code)] (which no [catch] intercepts), or not
    at all (an [await] that never resumes). *)
Inductive completion (A : Type) : Type :=
| Normal (a : A)
| Throw (e : js_error)
| Exit (code : Z)
| Pending.

Arguments Normal {A} a.
Arguments Throw {A} e.
Arguments Exit {A} code.
Arguments Pending {A}.

Definition M (A : Type) : Type := world -> completion A * world.

#[global] Instance M_ret : MRet M := fun A a w => (Normal a, w).

#[global] Instance M_bind : MBind M := fun A B f m w =>
  match m w with
  | (Normal a, w') => f a w'
  | (Throw e, w') => (Throw e, w')
  | (Exit code, w') => (Exit code, w')
  | (Pending, w') => (Pending, w')
  end.

Definition throw {A : Type} (e : js_error) : M A := fun w => (Throw e, w).

(** [try { body } catch (error) { handler }] *)
Definition try_catch {A : Type} (body : M A) (handler : js_error -> M A) : M A :=
  fun w =>
    match body w with
    | (Throw e, w') => handler e w'
    | r => r
    end.

(** A settled promise. *)
Inductive promise (A : Type) : Type :=
| Resolved (a : A)
| Rejected (e : js_error).

Arguments Resolved {A} a.
Arguments Rejected {A} e.

(** [await p] *)
Definition await {A : Type} (p : promise A) : M A :=
  match p with
  | Resolved a => mret a
  | Rejected e => throw e
  end.

(** An expression statement [p;] whose promise nobody awaits: a rejection
    reaches no [catch] of the script and is left with the runtime, which
    records it in [unhandled] and deals with it when the current turn of
    the event loop is over ([end_of_turn] below). *)
Definition unawaited {A : Type} (p : promise A) : M unit := fun w =>
  match p with
  | Resolved _ => (Normal tt, w)
  | Rejected e => (Normal tt, set_unhandled (unhandled w ++ [e]) w)
  end.

Definition emit (e : effect) (w : world) : world :=
  set_trace (trace w ++ [e]) w.

(** ** Runtime primitives *)

Definition console_log (line : string) : M unit := fun w =>
  (Normal tt, emit (ELog line) w).

(** [console.error(line, error)] *)
Definition console_error (line : string) (error : js_error) : M unit := fun w =>
  (Normal tt, emit (EError line error) w).

(** [process.exit(code)]: the process ends here. *)
Definition process_exit {A : Type} (code : Z) : M A := fun w =>
  (Exit code, emit (EExit code) w).

(** *** node:fs *)

Definition ENOENT : js_error :=
  {| err_name := "Error"; err_message := "no such file or directory";
     err_code := Some "ENOENT" |}.

Definition fs_existsSync (path : string) : M bool := fun w =>
  (Normal (bool_decide (is_Some (files w !! path))), w).

Definition fs_unlinkSync (path : string) : M unit := fun w =>
  match unlink_fault (env w) with
  | Some e => (Throw e, w)
  | None =>
      match files w !! path with
      | Some _ => (Normal tt, emit (EUnlink path) (set_files (delete path (files w)) w))
      | None => (Throw ENOENT, w)
      end
  end.

(** *** The libsql client *)

Definition LibsqlError (code message : string) : js_error :=
  {| err_name := "LibsqlError"; err_message := message; err_code := Some code |}.

(** The path behind a [file:] URL. *)
Definition path_of_url (url : string) : string :=
  match url with
  | String "f" (String "i" (String "l" (String "e" (String ":" path)))) => path
  | _ => url
  end.

(** [createClient({ url })]: synchronous; it may refuse the file. *)
Definition createClient (url : string) : M client := fun w =>
  match open_fault (env w) (files w !! path_of_url url) with
  | Some e => (Throw e, w)
  | None => (Normal {| client_url := url |}, w)
  end.

(** Values SQLite can bind to a NOT NULL column. *)
Definition storable (v : jsval) : bool :=
  match v with
  | VBool _ | VNum _ | VStr _ => true
  | _ => false
  end.

(** *** Column affinity *)

(** The client binds a string as TEXT and a number as REAL, a boolean
    being the number 1 or 0; the column then applies its affinity to what
    was bound. *)

(** White space for SQLite: TAB, LF, VT, FF, CR and SP. *)
Definition sqlite_space (c : ascii) : bool :=
  let n := Z.of_N (Ascii.N_of_ascii c) in
  ((9 <=? n) && (n <=? 13)) || (n =? 32).

Fixpoint skip_sqlite_space (s : string) : string :=
  match s with
  | EmptyString => EmptyString
  | String c rest => if sqlite_space c then skip_sqlite_space rest else s
  end.

(** Whether SQLite reads the whole of a text as a number (white space, an
    optional sign, digits with an optional point, an optional exponent,
    white space), and then its sign, significand and decimal exponent. *)
Definition sqlite_number (s : string) : option (bool * Z * Z) :=
  let '(negative, unsigned) := strip_sign (skip_sqlite_space s) in
  match read_unsigned_decimal unsigned with
  | Some (m, e, rest) =>
      match skip_sqlite_space rest with
      | EmptyString => Some (negative, m, e)
      | _ => None
      end
  | None => None
  end.

(** The text of a REAL with an integer value: its decimal expansion and
    [.0] when it has at most 15 digits (beyond, SQLite writes an exponent
    form). *)
Definition real_text (n : Z) : sql_value :=
  if Z.abs n <? 10 ^ 15 then SqlText (pretty n +:+ ".0") else SqlTextOfReal n.

(** What a REAL column holds for a bound value: a number stays; a text
    that reads as a number becomes that number (evaluated here when it is
    an integer written without exponent, or with one that cancels the
    fraction, and exact as a double); any other text stays text. *)
Definition real_affinity (v : jsval) : sql_value :=
  match v with
  | VNum n => SqlReal n
  | VBool b => SqlReal (if b then 1 else 0)
  | VStr s =>
      match sqlite_number s with
      | Some (negative, m, e) =>
          if (e =? 0) && (m <? 2 ^ 53) then SqlReal (if negative then - m else m)
          else SqlRealOfText s
      | None => SqlText s
      end
  | _ => SqlNull
  end.

(** What a TEXT column holds for a bound value: a text stays; a number
    becomes its text. *)
Definition text_affinity (v : jsval) : sql_value :=
  match v with
  | VStr s => SqlText s
  | VNum n => real_text n
  | VBool b => real_text (if b then 1 else 0)
  | _ => SqlNull
  end.

(** [ORDER BY created_at DESC]: [a] may come before [b]. *)
Definition created_desc (a b : row) : Prop := row_created_at b <= row_created_at a.

#[global] Instance created_desc_dec : RelDecision created_desc.
Proof. intros a b. unfold created_desc. apply _. Defined.

Definition no_rows : result_set :=
  {| rs_rows := []; rs_lastInsertRowid := VUndefined |}.

(** SQL semantics of the five statements on a store image at time [now]
    (seconds): the result set and, for a write, the new image. [SELECT 1]
    names no table and reads nothing of the file, so it succeeds on any
    image; every other statement needs the schema and fails on a file that
    is no database. An insert stores what the affinity of each column makes
    of the bound value. *)
Definition run_stmt (s : stmt) (now : Z) (img : db_image)
  : js_error + (result_set * option db_image) :=
  match img with
  | Garbage =>
      match s with
      | Select1 => inr (no_rows, None)
      | _ => inl (LibsqlError "SQLITE_NOTADB" "file is not a database")
      end
  | Database t =>
      match s, t with
      | Select1, _ => inr (no_rows, None)
      | CreateUserData, None =>
          inr (no_rows, Some (Database (Some {| tbl_rows := []; tbl_seq := 0 |})))
      | CreateUserData, Some _ => inr (no_rows, None)
      | _, None => inl (LibsqlError "SQLITE_ERROR" "no such table: user_data")
      | InsertUserData [budget; city; investment_type; target_audience], Some tbl =>
          if storable budget && storable city && storable investment_type
             && storable target_audience
          then
            let id := tbl_seq tbl + 1 in
            let r := {| row_id := id; row_budget := real_affinity budget;
                        row_city := text_affinity city;
                        row_investment_type := text_affinity investment_type;
                        row_target_audience := text_affinity target_audience;
                        row_created_at := now |} in
            inr ({| rs_rows := []; rs_lastInsertRowid := VNum id |},
                 Some (Database (Some {| tbl_rows := tbl_rows tbl ++ [r];
                                         tbl_seq := id |})))
          else inl (LibsqlError "SQLITE_CONSTRAINT" "NOT NULL constraint failed")
      | InsertUserData _, Some _ =>
          inl (LibsqlError "ARGS_INVALID" "wrong number of arguments")
      | SelectById [VNum id], Some tbl =>
          inr ({| rs_rows := filter (fun r => row_id r = id) (tbl_rows tbl);
                  rs_lastInsertRowid := VUndefined |}, None)
      | SelectById _, Some _ =>
          inl (LibsqlError "ARGS_INVALID" "unsupported id argument")
      | SelectAllByCreatedDesc, Some tbl =>
          inr ({| rs_rows := merge_sort created_desc (tbl_rows tbl);
                  rs_lastInsertRowid := VUndefined |}, None)
      end
  end.

(** [client.execute(stmt)]: always a promise, never a synchronous throw.
    A file that does not exist yet is an empty database, created by the
    first write. *)
Definition execute (c : client) (s : stmt) : M (promise result_set) := fun w =>
  let w := emit (EExecute s) w in
  match exec_fault (env w) s with
  | Some e => (Normal (Rejected e), w)
  | None =>
      let path := path_of_url (client_url c) in
      match run_stmt s (clock w `div` 1000) (default (Database None) (files w !! path)) with
      | inl e => (Normal (Rejected e), w)
      | inr (rs, None) => (Normal (Resolved rs), w)
      | inr (rs, Some img) => (Normal (Resolved rs), set_files (<[path := img]> (files w)) w)
      end
  end.

(** *** Timers and abort controllers *)

(** [new AbortController()] *)
Definition new_AbortController : M nat := fun w =>
  (Normal (fresh w), set_fresh (S (fresh w)) w).

(** The delay a timer is armed with: the one asked for when it is within
    1..2^31-1 milliseconds, and 1 millisecond otherwise. *)
Definition TIMEOUT_MAX : Z := 2 ^ 31 - 1.

Definition timer_delay (after : Z) : Z :=
  if (1 <=? after) && (after <=? TIMEOUT_MAX) then after else 1.

(** [setTimeout(() => controller.abort(), timeout)] *)
Definition setTimeout_abort (controller : nat) (timeout : Z) : M nat := fun w =>
  let t := {| timer_id := fresh w; timer_due := clock w + timer_delay timeout;
              timer_aborts := controller |} in
  (Normal (fresh w), set_fresh (S (fresh w)) (set_timers (timers w ++ [t]) w)).

(** [clearTimeout(id)] *)
Definition clearTimeout (id : nat) : M unit := fun w =>
  (Normal tt, set_timers (filter (fun t => timer_id t <> id) (timers w)) w).

(** The event loop reaches time [t]: every armed timer that is due has
    fired (its controller is aborted) and is gone. *)
Definition advance_to (t : Z) (w : world) : world :=
  let due := filter (fun x => timer_due x <= t) (timers w) in
  set_clock (Z.max (clock w) t)
    (set_aborted (aborted w ∪ list_to_set (timer_aborts <$> due))
       (set_timers (filter (fun x => t < timer_due x) (timers w)) w)).

(** The earliest time at which an armed timer aborts [controller]. *)
Definition earliest_abort (controller : nat) (ts : list timer) : option Z :=
  foldr (fun t acc =>
           if bool_decide (timer_aborts t = controller)
           then Some (match acc with
                      | Some a => Z.min (timer_due t) a
                      | None => timer_due t
                      end)
           else acc)
        None ts.

Definition abort_time (controller : nat) (w : world) : option Z :=
  earliest_abort controller (timers w).

(** [await fetch(url, { ..., signal })]: with a signal that is already
    aborted nothing is sent. Otherwise the request goes out and the await
    resumes with whichever comes first, the upstream settling or the signal
    being aborted (then [fetch] rejects with an AbortError). With neither,
    it never resumes. *)
Definition fetch (req : wire_request) (signal : nat) : M response := fun w =>
  if bool_decide (signal ∈ aborted w) then (Throw AbortError, w)
  else
    let w := emit (EFetch req) w in
    let settle :=
      match upstream (env w) req with
      | Responds latency r => Some (clock w + latency, Normal r)
      | Fails latency e => Some (clock w + latency, Throw e)
      | Hangs => None
      end in
    match abort_time signal w, settle with
    | Some ta, Some (ts, res) =>
        if ts <? ta then (res, advance_to ts w)
        else (Throw AbortError, advance_to ta w)
    | Some ta, None => (Throw AbortError, advance_to ta w)
    | None, Some (ts, res) => (res, advance_to ts w)
    | None, None => (Pending, w)
    end.

(** [await response.json()] *)
Definition response_json (r : response) : M jsval :=
  match resp_body r with
  | BodyJson data => mret data
  | BodyError e => throw e
  | BodyHangs => fun w => (Pending, w)
  end.

(** *** node:net and the http server *)

Definition ERR_SOCKET_BAD_PORT : js_error :=
  RangeError "options.port should be >= 0 and < 65536" "ERR_SOCKET_BAD_PORT".

(** How [listen] reads its first argument. A string [s] is a pipe name
    unless [Number(s) >= 0]; a number, or a string that is no pipe name, is
    a port and must pass the port check: not blank, an integer, at most
    65535. With no port the system picks one (port 0). (The script only
    ever passes a string or a number; the last case stands for the option
    objects and booleans that never reach [listen] here.) *)
Definition listen_target_of (port : jsval) : js_error + listen_target :=
  match port with
  | VNum n =>
      if (0 <=? n) && (n <=? 65535) then inr (TcpPort n)
      else inl ERR_SOCKET_BAD_PORT
  | VStr s =>
      let x := StringToNumber s in
      if non_negative x then
        match port_number x with
        | Some n => if blank s then inl ERR_SOCKET_BAD_PORT else inr (TcpPort n)
        | None => inl ERR_SOCKET_BAD_PORT
        end
      else inr (Pipe s)
  | VNaN => inl ERR_SOCKET_BAD_PORT
  | VUndefined | VNull => inr (TcpPort 0)
  | VBool _ | VArr _ | VObj _ => inl (TypeError "The argument 'options' is invalid")
  end.

(** [app.listen(port, () => console.log(line))]: throws on a bad port;
    otherwise the bind is attempted. On ['listening'] the callback logs; an
    ['error'] event has no listener in the script and ends the process as
    an uncaught exception (status 1). *)
Definition app_listen (port : jsval) (line : string) : M http_server := fun w =>
  match listen_target_of port with
  | inl e => (Throw e, w)
  | inr t =>
      let w := emit (EListen t) w in
      match real_bind (env w) t with
      | BindListening =>
          (Normal {| srv_target := t; srv_listening := true;
                     srv_connections := 0%nat; srv_on_close := [] |},
           emit (ELog line) w)
      | BindError e => (Exit 1, emit (EExit 1) (emit (EUncaught e) w))
      end
  end.

Definition run_callback (cb : callback) : M unit :=
  match cb with
  | GracefulExit =>
      console_log "Server shut down gracefully";;
      process_exit 0
  end.

Fixpoint run_callbacks (cbs : list callback) : M unit :=
  match cbs with
  | [] => mret tt
  | cb :: rest => run_callback cb;; run_callbacks rest
  end.

(** The server emits ['close'] once it neither listens nor has open
    connections; its once-listeners run and are dropped. *)
Definition emit_close_if_drained : M unit := fun w =>
  match server w with
  | Some s =>
      if srv_listening s || negb (Nat.eqb (srv_connections s) 0) then (Normal tt, w)
      else
        run_callbacks (srv_on_close s)
          (set_server (Some {| srv_target := srv_target s; srv_listening := false;
                               srv_connections := srv_connections s;
                               srv_on_close := [] |}) w)
  | None => (Normal tt, w)
  end.

(** [server.close(cb)]: [cb] waits for ['close']; the server stops
    listening at once; open connections are kept. *)
Definition server_close (cb : callback) : M unit := fun w =>
  match server w with
  | Some s =>
      let w1 := if srv_listening s then emit EStopListening w else w in
      emit_close_if_drained
        (set_server (Some {| srv_target := srv_target s; srv_listening := false;
                             srv_connections := srv_connections s;
                             srv_on_close := srv_on_close s ++ [cb] |}) w1)
  | None => (Throw (TypeError "Cannot read properties of undefined (reading 'close')"), w)
  end.

(** A client connects: admitted only while the server listens. *)
Definition connection_arrives : M unit := fun w =>
  match server w with
  | Some s =>
      if srv_listening s
      then (Normal tt,
            emit EAccept
              (set_server (Some {| srv_target := srv_target s; srv_listening := true;
                                   srv_connections := S (srv_connections s);
                                   srv_on_close := srv_on_close s |}) w))
      else (Normal tt, emit ERefuse w)
  | None => (Normal tt, emit ERefuse w)
  end.

(** A connection ends: its request, if any, has completed and its response
    is flushed. *)
Definition connection_ends : M unit := fun w =>
  match server w with
  | Some s =>
      emit_close_if_drained
        (set_server (Some {| srv_target := srv_target s;
                             srv_listening := srv_listening s;
                             srv_connections := Nat.pred (srv_connections s);
                             srv_on_close := srv_on_close s |}) w)
  | None => (Normal tt, w)
  end.

(** ** The script: src/server/index.js *)

Definition DB_PATH : string := "database.sqlite".

(** Lines 13-30. The probe [db.execute('SELECT 1')] is an expression
    statement in a function that is not [async]: its promise is not
    awaited, so the inner [catch] sees what [createClient] throws and
    nothing else. *)
Definition checkAndInitializeDatabase : M unit :=
  try_catch
    (present ← fs_existsSync DB_PATH;
     if (present : bool) then
       try_catch
         (db ← createClient ("file:" +:+ DB_PATH);
          probe ← execute db Select1;
          unawaited probe)
         (fun error =>
            console_log "Database corrupted, recreating...";;
            fs_unlinkSync DB_PATH)
     else mret tt)
    (fun error => console_error "Error checking database:" error).

(** Lines 47-71. *)
Definition initializeDatabase : M client :=
  try_catch
    (checkAndInitializeDatabase;;
     db ← createClient ("file:" +:+ DB_PATH);
     created ← execute db CreateUserData;
     await created;;
     console_log "Database initialized successfully";;
     mret db)
    (fun error =>
       console_error "Error initializing database:" error;;
       process_exit 1).

(** Lines 77-93. The promise resolves [true] on an ['error'] event whose
    code is EADDRINUSE, [false] on any other ['error'] (after logging it)
    and [false] once the tester that got ['listening'] is closed. A bad
    port makes [listen] throw inside the executor: the promise rejects. *)
Definition isPortInUse (port : jsval) : M bool := fun w =>
  match listen_target_of port with
  | inl e => (Throw e, w)
  | inr t =>
      let w := emit (EProbe t) w in
      match probe_bind (env w) t with
      | BindError err =>
          if bool_decide (err_code err = Some "EADDRINUSE") then (Normal true, w)
          else
            (Normal false,
             emit (EError ("Error checking port " +:+ to_string port +:+ ":") err) w)
      | BindListening => (Normal false, emit (EProbeClosed t) w)
      end
  end.

(** Lines 96-105. *)
Definition shutdown : M unit := fun w =>
  match server w with
  | Some _ => server_close GracefulExit w
  | None => process_exit 0 w
  end.

Record fetch_options : Type := mk_fetch_options {
  opt_method : string;
  opt_headers : list (string * string);
  opt_body : json_text
}.

(** Lines 108-123; [timeout] is [None] when the argument is omitted. *)
Definition fetchWithTimeout (url : string) (options : fetch_options)
    (timeout : option Z) : M response :=
  controller ← new_AbortController;
  timeoutId ← setTimeout_abort controller (default 10000 timeout);
  try_catch
    (response ← fetch {| wr_url := url; wr_method := opt_method options;
                         wr_headers := opt_headers options;
                         wr_body := opt_body options |} controller;
     clearTimeout timeoutId;;
     mret response)
    (fun error =>
       clearTimeout timeoutId;;
       throw error).

(** *** Route handlers *)

(** An inbound request after [express.json()]: its headers and [req.body]
    (possibly [undefined]). *)
Record request : Type := mk_request {
  req_headers : list (string * string);
  req_body : jsval
}.

(** The value of [o.key] where reading it does not throw: the field of an
    object, [undefined] when absent; nothing on [undefined] and [null].
    (None of the keys the script reads is a built-in property of strings,
    arrays or numbers.) *)
Definition prop_value (o : jsval) (key : string) : option jsval :=
  match o with
  | VUndefined | VNull => None
  | VObj fields => Some (default VUndefined (fields !! key))
  | _ => Some VUndefined
  end.

(** [o.key]: a TypeError on [undefined] and [null]. *)
Definition get_prop (o : jsval) (key : string) : M jsval :=
  match prop_value o key with
  | Some v => mret v
  | None =>
      throw (TypeError ("Cannot read properties of " +:+ to_string o
                        +:+ " (reading '" +:+ key +:+ "')"))
  end.

(** One binding of [const { key, ... } = o], where [source] is the text of
    the expression [o]: a TypeError when [o] is [undefined] or [null]. *)
Definition destructured (o : jsval) (source key : string) : M jsval :=
  match prop_value o key with
  | Some v => mret v
  | None =>
      throw (TypeError ("Cannot destructure property '" +:+ key +:+ "' of '"
                        +:+ source +:+ "' as it is " +:+ to_string o +:+ "."))
  end.

(** [db.execute(stmt)] on the module-level [db]. *)
Definition db_execute (s : stmt) : M (promise result_set) := fun w =>
  match db w with
  | Some c => execute c s w
  | None => (Throw (TypeError "Cannot read properties of undefined (reading 'execute')"), w)
  end.

(** [res.json(body)] and [res.status(code).json(body)] *)
Definition res_json (body : payload) : M unit := fun w =>
  (Normal tt, emit (ERespond 200 body) w).

Definition res_status_json (code : Z) (body : payload) : M unit := fun w =>
  (Normal tt, emit (ERespond code body) w).

(** [{ error: message }] *)
Definition error_body (message : string) : payload :=
  PJson (VObj {[ "error" := VStr message ]}).

(** Lines 131-150: POST /api/user-data. *)
Definition post_user_data (req : request) : M unit :=
  try_catch
    (budget ← destructured (req_body req) "req.body" "budget";
     city ← destructured (req_body req) "req.body" "city";
     investmentType ← destructured (req_body req) "req.body" "investmentType";
     targetAudience ← destructured (req_body req) "req.body" "targetAudience";
     inserting ← db_execute (InsertUserData [budget; city; investmentType; targetAudience]);
     result ← await inserting;
     selecting ← db_execute (SelectById [rs_lastInsertRowid result]);
     insertedData ← await selecting;
     res_json (PRow (head (rs_rows insertedData))))
    (fun error =>
       console_error "Error saving user data:" error;;
       res_status_json 500 (error_body "Failed to save user data")).

(** Lines 153-161: GET /api/user-data. *)
Definition get_user_data (req : request) : M unit :=
  try_catch
    (selecting ← db_execute SelectAllByCreatedDesc;
     result ← await selecting;
     res_json (PRows (rs_rows result)))
    (fun error =>
       console_error "Error fetching user data:" error;;
       res_status_json 500 (error_body "Failed to fetch user data")).

Definition AI_URL : string :=
  "http://26.59.53.88:7860/api/v1/run/ac325ffc-2462-42ff-aa33-292f0c33b66b?stream=false".

Definition AI_KEY : string := "sk-tjmcaGsj62BGA6iy-13F1Q9esTKx-4QLYb9u_TVL84k".

(** The object literal of lines 175-188. *)
Definition ai_payload (input_value : jsval) : jsval :=
  VObj (list_to_map
    [("input_value", input_value);
     ("output_type", VStr "chat");
     ("input_type", VStr "chat");
     ("tweaks", VObj (list_to_map
        [("Agent-2KW2O", VObj ∅);
         ("ChatInput-6v3mV", VObj ∅);
         ("PythonFunction-FcmS4", VObj ∅);
         ("PythonFunction-T0TgC", VObj ∅);
         ("NVIDIAEmbeddingsComponent-JJW34", VObj ∅);
         ("Chroma-ujg9M", VObj ∅);
         ("ChatOutput-uuXRz", VObj ∅)]))]).

Definition ai_options (input_value : jsval) : fetch_options :=
  {| opt_method := "POST";
     opt_headers := [("Content-Type", "application/json"); ("x-api-key", AI_KEY)];
     opt_body := JSON_stringify (ai_payload input_value) |}.

(** Lines 164-207: POST /api/proxy/ai. *)
Definition post_proxy_ai (req : request) : M unit :=
  try_catch
    (console_log "Attempting to connect to AI API...";;
     input_value ← get_prop (req_body req) "input_value";
     response ← fetchWithTimeout AI_URL (ai_options input_value) (Some 30000);
     (if negb (resp_ok response)
      then throw (Error ("API responded with status: " +:+ pretty (resp_status response)))
      else mret tt);;
     data ← response_json response;
     res_json (PJson data))
    (fun error =>
       console_error "Error calling AI API:" error;;
       if String.eqb (err_name error) "AbortError"
       then res_status_json 504 (error_body "Request timeout - AI service is not responding")
       else res_status_json 500 (error_body "Failed to process AI request")).

Definition run_handler (h : handler) : request -> M unit :=
  match h with
  | SaveUserData => post_user_data
  | GetUserData => get_user_data
  | ProxyAI => post_proxy_ai
  end.

(** [app.post(path, handler)] / [app.get(path, handler)] *)
Definition app_route (method path : string) (h : handler) : M unit := fun w =>
  (Normal tt, set_routes (routes w ++ [(method, path, h)]) w).

(** *** Start-up *)

(** [process.env.PORT || fallback] *)
Definition process_env_PORT_or (fallback : Z) : M jsval := fun w =>
  (Normal (js_or (env_value (env_PORT (env w))) (VNum fallback)), w).

(** [db = ...] and [server = ...] on the module-level variables. *)
Definition assign_db (c : client) : M unit := fun w =>
  (Normal tt, set_db (Some c) w).

Definition assign_server (s : http_server) : M unit := fun w =>
  (Normal tt, set_server (Some s) w).

(** Lines 209-222 of [startServer]: the port is [process.env.PORT || 3000];
    if the test says it is in use the server listens on [PORT + 1], else on
    [PORT]; the server object is stored in the module-level [server]. *)
Definition resolve_and_listen : M unit :=
  PORT ← process_env_PORT_or 3000;
  portInUse ← isPortInUse PORT;
  if (portInUse : bool) then
    console_log ("Port " +:+ to_string PORT +:+ " is already in use. Trying port "
                 +:+ to_string (js_add PORT (VNum 1)));;
    s ← app_listen (js_add PORT (VNum 1))
          ("Server running on port " +:+ to_string (js_add PORT (VNum 1)));
    assign_server s
  else
    s ← app_listen PORT ("Server running on port " +:+ to_string PORT);
    assign_server s.

(** Lines 126-227. *)
Definition startServer : M unit :=
  try_catch
    (client ← initializeDatabase;
     assign_db client;;
     app_route "POST" "/api/user-data" SaveUserData;;
     app_route "GET" "/api/user-data" GetUserData;;
     app_route "POST" "/api/proxy/ai" ProxyAI;;
     resolve_and_listen)
    (fun error =>
       console_error "Failed to start server:" error;;
       process_exit 1).

(** The end of a turn of the event loop. Once the tick queue and the
    microtask queue are empty the runtime turns to the rejections that
    nobody handled: the first one ends the process as an uncaught
    exception, with status 1 (Node 15 and later). *)
Definition end_of_turn : M unit := fun w =>
  match unhandled w with
  | [] => (Normal tt, w)
  | e :: _ => (Exit 1, emit (EExit 1) (emit (EUncaught e) w))
  end.

(** Lines 229-234: the script installs its signal handlers ([on_signal]
    below) and calls [startServer()]. Nothing in start-up waits for
    anything outside the process: the statements of the embedded store run
    synchronously inside their promises, and [listen] binds at once and
    reports on the next tick. Start-up therefore runs to its end within the
    first turn, and the only promise the script leaves without a handler,
    the probe of the check, is judged at the end of that turn. *)
Definition main : M unit :=
  startServer;;
  end_of_turn.

(** *** Events of the running process *)

Inductive signal : Type := SIGINT | SIGTERM.

(** Lines 230-231: both signals run [shutdown]. *)
Definition on_signal (s : signal) : M unit := shutdown.

(** What can happen to the process between two turns of the event loop,
    as far as draining is concerned. *)
Inductive event : Type :=
| Signal (s : signal)
| ConnectionArrives
| ConnectionEnds.

Definition handle_event (e : event) : M unit :=
  match e with
  | Signal s => on_signal s
  | ConnectionArrives => connection_arrives
  | ConnectionEnds => connection_ends
  end.

Fixpoint run_events (es : list event) : M unit :=
  match es with
  | [] => mret tt
  | e :: rest => handle_event e;; run_events rest
  end.

(** *** Worlds to run the script in *)

(** An environment in which nothing fails: free ports, a sound store, an
    upstream that answers 200 with [null] after 100 ms. *)
Definition calm : environment :=
  {| env_PORT := None;
     open_fault := fun _ => None;
     exec_fault := fun _ => None;
     unlink_fault := None;
     probe_bind := fun _ => BindListening;
     real_bind := fun _ => BindListening;
     upstream := fun _ => Responds 100 {| resp_status := 200; resp_body := BodyJson VNull |} |}.

(** The process as it starts, with the given environment and files. *)
Definition boot (e : environment) (fs : gmap string db_image) : world :=
  {| env := e; db := None; server := None; routes := []; files := fs;
     clock := 0; timers := []; fresh := 0%nat; aborted := ∅; unhandled := [];
     trace := [] |}.

(** ** Observing a run *)

(** The effects emitted between [w] and a later world [w']. *)
Definition since (w w' : world) : list effect :=
  drop (length (trace w)) (trace w').

(** The targets of the real [listen] calls. *)
Definition listens (tr : list effect) : list listen_target :=
  omap (fun e => match e with EListen t => Some t | _ => None end) tr.

(** The HTTP responses written. *)
Definition responses (tr : list effect) : list (Z * payload) :=
  omap (fun e => match e with ERespond s b => Some (s, b) | _ => None end) tr.

(** The outbound requests sent. *)
Definition fetches (tr : list effect) : list wire_request :=
  omap (fun e => match e with EFetch r => Some r | _ => None end) tr.

(** The statements handed to the storage client. *)
Definition statements (tr : list effect) : list stmt :=
  omap (fun e => match e with EExecute s => Some s | _ => None end) tr.

(** The store files deleted. *)
Definition unlinks (tr : list effect) : list string :=
  omap (fun e => match e with EUnlink p => Some p | _ => None end) tr.

(** The lines written with [console.error]. *)
Definition error_lines (tr : list effect) : list string :=
  omap (fun e => match e with EError l _ => Some l | _ => None end) tr.

(** How many connections were admitted. *)
Definition admitted (tr : list effect) : nat :=
  length (omap (fun e => match e with EAccept => Some tt | _ => None end) tr).

(** How many connections ended among the events. *)
Definition ended (es : list event) : nat :=
  length (omap (fun e => match e with ConnectionEnds => Some tt | _ => None end) es).

(** Ids are handed out in increasing order: whatever a timer or an aborted
    signal refers to was created before [fresh]. *)
Definition wf (w : world) : Prop :=
  Forall (fun t => (timer_id t < fresh w)%nat /\ (timer_aborts t < fresh w)%nat) (timers w)
  /\ (forall c, c ∈ aborted w -> (c < fresh w)%nat).

(** The deadline of a call, in milliseconds after its start: the delay its
    timer is armed with, for the argument [timeout] or for 10000 when it is
    omitted. *)
Definition deadline_of (timeout : option Z) : Z := timer_delay (default 10000 timeout).

(** The request [fetchWithTimeout(url, options, ...)] puts on the wire. *)
Definition call_request (url : string) (options : fetch_options) : wire_request :=
  {| wr_url := url; wr_method := opt_method options;
     wr_headers := opt_headers options; wr_body := opt_body options |}.

(** The world of a call that started in [w] and settled at [time]: the
    controller [fresh w] and the timer [S (fresh w)] were created, the
    request went out, the timers due by [time] fired, and the timer of the
    call was cleared. *)
Definition call_settled (url : string) (options : fetch_options) (timeout : option Z)
    (w : world) (time : Z) : world :=
  (clearTimeout (S (fresh w))
     (advance_to time
        (emit (EFetch (call_request url options))
           (set_fresh (S (S (fresh w)))
              (set_timers
                 (timers w ++ [{| timer_id := S (fresh w);
                                  timer_due := clock w + deadline_of timeout;
                                  timer_aborts := fresh w |}])
                 w))))).2.

(** The server no longer listens, a ['close'] listener is waiting, and [k]
    connections are still open. *)
Definition draining (w : world) (k : nat) : Prop :=
  exists s, server w = Some s /\ srv_listening s = false
            /\ srv_on_close s <> [] /\ srv_connections s = k.



(** The request the proxy sends for a given [input_value]. *)
Definition ai_request (input_value : jsval) : wire_request :=
  {| wr_url := AI_URL; wr_method := "POST";
     wr_headers := [("Content-Type", "application/json"); ("x-api-key", AI_KEY)];
     wr_body := JSON_stringify (ai_payload input_value) |}.

(** What the storage would answer to the listing query: the rows of the
    table, when the client exists, the statement does not fail and the
    store file holds the table. *)
Definition stored_rows (w : world) : option (list row) :=
  match db w with
  | Some c =>
      match exec_fault (env w) SelectAllByCreatedDesc,
            files w !! path_of_url (client_url c) with
      | None, Some (Database (Some tbl)) => Some (tbl_rows tbl)
      | _, _ => None
      end
  | None => None
  end.

(** *** Environments with a fault *)

Definition EADDRINUSE : js_error :=
  {| err_name := "Error"; err_message := "listen EADDRINUSE: address already in use";
     err_code := Some "EADDRINUSE" |}.

Definition EACCES : js_error :=
  {| err_name := "Error"; err_message := "listen EACCES: permission denied";
     err_code := Some "EACCES" |}.

(** [calm], except that [PORT] is set as given and binding the test
    listener to TCP port [p] fails with [e]. *)
Definition test_bind_fails (PORT : option string) (p : Z) (e : js_error) : environment :=
  {| env_PORT := PORT;
     open_fault := open_fault calm;
     exec_fault := exec_fault calm;
     unlink_fault := unlink_fault calm;
     probe_bind := fun t =>
       match t with
       | TcpPort q => if q =? p then BindError e else BindListening
       | Pipe _ => BindListening
       end;
     real_bind := real_bind calm;
     upstream := upstream calm |}.

(** [calm], except that [createClient] checks the file when it opens it
    and throws on one that is no database. *)
Definition opens_eagerly : environment :=
  {| env_PORT := env_PORT calm;
     open_fault := fun img =>
       match img with
       | Some Garbage => Some (LibsqlError "SQLITE_NOTADB" "file is not a database")
       | _ => None
       end;
     exec_fault := exec_fault calm;
     unlink_fault := unlink_fault calm;
     probe_bind := probe_bind calm;
     real_bind := real_bind calm;
     upstream := upstream calm |}.

(** [calm], except for the behaviour of the upstream. *)
Definition with_upstream (b : fetch_behaviour) : environment :=
  {| env_PORT := env_PORT calm;
     open_fault := open_fault calm;
     exec_fault := exec_fault calm;
     unlink_fault := unlink_fault calm;
     probe_bind := probe_bind calm;
     real_bind := real_bind calm;
     upstream := fun _ => b |}.

(** A running service: [boot], then a listening server with [n] open
    connections. *)
Definition serving (n : nat) : world :=
  set_server (Some {| srv_target := TcpPort 3000; srv_listening := true;
                      srv_connections := n; srv_on_close := [] |})
             (boot calm ∅).

(** ** Further observations and worlds *)

(** The bind-related effects of a trace, in order. *)
Definition binds (tr : list effect) : list effect :=
  omap (fun e => match e with
                 | EProbe _ | EProbeClosed _ | EListen _ => Some e
                 | _ => None
                 end) tr.

(** The shapes the bind activity of a start-up can have: none; a test
    bind alone; a test listener that bound, was closed, and then the real
    listen on the same target; a test bind that failed, then a real
    listen. *)
Definition bind_shape (l : list effect) : Prop :=
  l = []
  \/ exists t, l = [EProbe t]
               \/ l = [EProbe t; EProbeClosed t; EListen t]
               \/ exists t', l = [EProbe t; EListen t'].


(** The client [initializeDatabase] returns. *)
Definition store_client : client := {| client_url := "file:" +:+ DB_PATH |}.

(** The table has handed out every rowid it holds. *)
Definition table_wf (tbl : table) : Prop :=
  Forall (fun r => row_id r <= tbl_seq tbl) (tbl_rows tbl).

(** The row an insert of the four values creates in [tbl] at [now]: the
    next rowid, each value as its column holds it, and the time. *)
Definition new_row (tbl : table) (budget city investmentType targetAudience : jsval)
    (now : Z) : row :=
  {| row_id := tbl_seq tbl + 1; row_budget := real_affinity budget;
     row_city := text_affinity city;
     row_investment_type := text_affinity investmentType;
     row_target_audience := text_affinity targetAudience;
     row_created_at := now |}.

(** The body has the four fields, each of a type the storage can bind. *)
Definition insertable (body : jsval) : bool :=
  match prop_value body "budget", prop_value body "city",
        prop_value body "investmentType", prop_value body "targetAudience" with
  | Some budget, Some city, Some investmentType, Some targetAudience =>
      storable budget && storable city && storable investmentType
      && storable targetAudience
  | _, _, _, _ => false
  end.

(** [body.key] of a body that can be read: [undefined] when absent. *)
Definition field (body : jsval) (key : string) : jsval :=
  default VUndefined (prop_value body key).

(** The insert the handler sends for a body, and the row it creates. *)
Definition insert_of_body (body : jsval) : stmt :=
  InsertUserData [field body "budget"; field body "city";
                  field body "investmentType"; field body "targetAudience"].

Definition row_of_body (tbl : table) (body : jsval) (now : Z) : row :=
  new_row tbl (field body "budget") (field body "city")
    (field body "investmentType") (field body "targetAudience") now.

(** The table [tbl] after the insert of [body] at [now]. *)
Definition table_with (tbl : table) (body : jsval) (now : Z) : table :=
  {| tbl_rows := tbl_rows tbl ++ [row_of_body tbl body now];
     tbl_seq := tbl_seq tbl + 1 |}.

(** One request as the event loop sees it: its handler runs; a handler
    that is suspended for ever keeps its own request unanswered and the
    loop goes on. *)
Definition serve (h : handler) (req : request) : M unit := fun w =>
  match run_handler h req w with
  | (Pending, w') => (Normal tt, w')
  | r => r
  end.

Fixpoint serve_all (reqs : list (handler * request)) : M unit :=
  match reqs with
  | [] => mret tt
  | (h, req) :: rest => serve h req;; serve_all rest
  end.

(** [calm], except that the store file can neither be opened nor
    deleted. *)
Definition locked_garbage : environment :=
  {| env_PORT := env_PORT calm;
     open_fault := fun img =>
       match img with
       | Some Garbage => Some (LibsqlError "SQLITE_NOTADB" "file is not a database")
       | _ => None
       end;
     exec_fault := exec_fault calm;
     unlink_fault := Some {| err_name := "Error";
                             err_message := "EPERM: operation not permitted, unlink";
                             err_code := Some "EPERM" |};
     probe_bind := probe_bind calm;
     real_bind := real_bind calm;
     upstream := upstream calm |}.

(** [calm], except that reading a row back by its id fails. *)
Definition cannot_reread : environment :=
  {| env_PORT := env_PORT calm;
     open_fault := open_fault calm;
     exec_fault := fun s =>
       match s with
       | SelectById _ => Some (LibsqlError "SQLITE_BUSY" "database is locked")
       | _ => None
       end;
     unlink_fault := unlink_fault calm;
     probe_bind := probe_bind calm;
     real_bind := real_bind calm;
     upstream := upstream calm |}.

(** [calm], except that the probe [SELECT 1] is rejected. *)
Definition probe_rejected : environment :=
  {| env_PORT := env_PORT calm;
     open_fault := open_fault calm;
     exec_fault := fun s =>
       match s with
       | Select1 => Some (LibsqlError "CLIENT_CLOSED" "The client is closed")
       | _ => None
       end;
     unlink_fault := unlink_fault calm;
     probe_bind := probe_bind calm;
     real_bind := real_bind calm;
     upstream := upstream calm |}.

(** [calm], with [PORT] set. *)
Definition with_PORT (PORT : string) : environment :=
  {| env_PORT := Some PORT;
     open_fault := open_fault calm;
     exec_fault := exec_fault calm;
     unlink_fault := unlink_fault calm;
     probe_bind := probe_bind calm;
     real_bind := real_bind calm;
     upstream := upstream calm |}.

(** A row and a table to run the handlers on. *)
Definition sample_row : row :=
  {| row_id := 1; row_budget := SqlReal 5000; row_city := SqlText "Recife";
     row_investment_type := SqlText "bakery"; row_target_audience := SqlText "students";
     row_created_at := 10 |}.

Definition sample_table : table := {| tbl_rows := [sample_row]; tbl_seq := 1 |}.

(** A body with the four fields. *)
Definition sample_body : jsval :=
  VObj (list_to_map [("budget", VNum 900); ("city", VStr "Olinda");
                     ("investmentType", VStr "cafe"); ("targetAudience", VStr "tourists")]).

(** A body with the four fields, none of the type of its column. *)
Definition ill_typed_body : jsval :=
  VObj (list_to_map [("budget", VStr "12"); ("city", VNum 5);
                     ("investmentType", VBool true); ("targetAudience", VBool false)]).

(** The process after start-up on a store that holds [sample_table], at
    clock 20000 ms, in the given environment. *)
Definition started (e : environment) : world :=
  set_clock 20000
    (set_db (Some store_client)
       (boot e {[ DB_PATH := Database (Some sample_table) ]})).

(** A world in which another call is under way: its controller 0 and its
    timer 1, due at 50000 ms, exist already. *)
Definition other_call_pending (e : environment) : world :=
  set_fresh 2
    (set_timers [{| timer_id := 1%nat; timer_due := 50000; timer_aborts := 0%nat |}]
       (boot e ∅)).

(** * Properties *)

(** ** Traces *)

Lemma since_app (w w' : world) (new : list effect) :
  trace w' = trace w ++ new -> since w w' = new.
Proof. intros H. unfold since. rewrite H. apply drop_app_length. Qed.

Lemma since_refl (w : world) : since w w = [].
Proof. apply since_app. by rewrite app_nil_r. Qed.

(** Reads the effects of a run off its final trace. *)
Ltac read_trace :=
  erewrite since_app; [ | cbn; rewrite <- ?app_assoc; cbn; reflexivity ].

(** The same, from a known trace [H] of an intermediate world. *)
Ltac read_trace_from H :=
  erewrite since_app;
  [ | cbn; rewrite H, <- ?app_assoc; cbn; reflexivity ].

(** ** Port resolution and listening (lines 77-93 and 209-222) *)

Lemma app_listen_run (port : jsval) (line : string) (t : listen_target) (w : world) :
  listen_target_of port = inr t ->
  app_listen port line w =
    match real_bind (env w) t with
    | BindListening =>
        (Normal {| srv_target := t; srv_listening := true;
                   srv_connections := 0%nat; srv_on_close := [] |},
         emit (ELog line) (emit (EListen t) w))
    | BindError e => (Exit 1, emit (EExit 1) (emit (EUncaught e) (emit (EListen t) w)))
    end.
Proof. intros Ht. unfold app_listen. rewrite Ht. reflexivity. Qed.

Lemma app_listen_throws (port : jsval) (line : string) (e : js_error) (w : world) :
  listen_target_of port = inl e -> app_listen port line w = (Throw e, w).
Proof. intros Ht. unfold app_listen. by rewrite Ht. Qed.

(** What [resolve_and_listen] does, by outcome of the test bind. *)
Lemma resolve_and_listen_cases (w : world) (t : listen_target) :
  let PORT := js_or (env_value (env_PORT (env w))) (VNum 3000) in
  listen_target_of PORT = inr t ->
  let w' := (resolve_and_listen w).2 in
  match probe_bind (env w) t with
  | BindError e =>
      if bool_decide (err_code e = Some "EADDRINUSE")
      then listens (since w w') =
             match listen_target_of (js_add PORT (VNum 1)) with
             | inr t' => [t']
             | inl _ => []
             end
      else listens (since w w') = [t]
           /\ error_lines (since w w') = ["Error checking port " +:+ to_string PORT +:+ ":"]
           /\ (resolve_and_listen w).1 =
                match real_bind (env w) t with
                | BindListening => Normal tt
                | BindError _ => Exit 1
                end
  | BindListening => listens (since w w') = [t]
  end.
Proof.
  intros PORT Ht w'. subst w'.
  unfold resolve_and_listen, mbind, M_bind, process_env_PORT_or, isPortInUse.
  fold PORT. rewrite Ht. cbn [env emit set_trace].
  destruct (probe_bind (env w) t) as [|e] eqn:Hp.
  - rewrite (app_listen_run _ _ t) by done. cbn [env emit set_trace].
    destruct (real_bind (env w) t); by read_trace.
  - case_bool_decide as Hcode.
    + unfold console_log.
      destruct (listen_target_of (js_add PORT (VNum 1))) as [err|t'] eqn:Ht'.
      * rewrite (app_listen_throws _ _ err) by done. by read_trace.
      * rewrite (app_listen_run _ _ t') by done. cbn [env emit set_trace].
        destruct (real_bind (env w) t'); by read_trace.
    + rewrite (app_listen_run _ _ t) by done. cbn [env emit set_trace].
      destruct (real_bind (env w) t); (split; [|split]); try done; by read_trace.
Qed.

(** C7 (as amended). During port resolution only a failure of the test
    bind whose code is EADDRINUSE makes the script listen on [PORT + 1] (as
    it computes that value). Any other failure of the test listener is
    logged and the port is then treated as free: the script goes on to
    listen on the preferred port itself, and it ends the process only if
    that real bind fails too. A test listener that binds leads to the
    preferred port as well. *)
Theorem C7_only_EADDRINUSE_falls_back (w : world) (t : listen_target) :
  let PORT := js_or (env_value (env_PORT (env w))) (VNum 3000) in
  listen_target_of PORT = inr t ->
  let w' := (resolve_and_listen w).2 in
  (forall e, probe_bind (env w) t = BindError e ->
             err_code e <> Some "EADDRINUSE" ->
             listens (since w w') = [t]
             /\ error_lines (since w w')
                = ["Error checking port " +:+ to_string PORT +:+ ":"]
             /\ (resolve_and_listen w).1 =
                  match real_bind (env w) t with
                  | BindListening => Normal tt
                  | BindError _ => Exit 1
                  end)
  /\ (probe_bind (env w) t = BindListening -> listens (since w w') = [t])
  /\ (forall e, probe_bind (env w) t = BindError e ->
                err_code e = Some "EADDRINUSE" ->
                listens (since w w') =
                  match listen_target_of (js_add PORT (VNum 1)) with
                  | inr t' => [t']
                  | inl _ => []
                  end).
Proof.
  intros PORT Ht w'.
  pose proof (resolve_and_listen_cases w t Ht) as H. cbn zeta in H.
  fold PORT in H. fold w' in H.
  split; [|split].
  - intros e He Hcode. rewrite He in H.
    by rewrite bool_decide_eq_false_2 in H.
  - intros Hl. by rewrite Hl in H.
  - intros e He Hcode. rewrite He in H.
    by rewrite bool_decide_eq_true_2 in H.
Qed.

(** At the default port the test bind is refused with EACCES; the real
    bind then succeeds. *)
Lemma C7_only_EADDRINUSE_falls_back_witness :
  let w := boot (test_bind_fails None 3000 EACCES) ∅ in
  listen_target_of (js_or (env_value (env_PORT (env w))) (VNum 3000)) = inr (TcpPort 3000)
  /\ probe_bind (env w) (TcpPort 3000) = BindError EACCES
  /\ err_code EACCES <> Some "EADDRINUSE"
  /\ listens (since w (resolve_and_listen w).2) = [TcpPort 3000]
  /\ error_lines (since w (resolve_and_listen w).2) = ["Error checking port 3000:"]
  /\ (resolve_and_listen w).1 = Normal tt.
Proof.
  cbn zeta.
  split; [reflexivity|]. split; [reflexivity|]. split; [discriminate|].
  apply (proj1 (C7_only_EADDRINUSE_falls_back
                  (boot (test_bind_fails None 3000 EACCES) ∅) (TcpPort 3000) eq_refl)
           EACCES); [reflexivity | discriminate].
Defined.

(** C7 (as stated) fails: with the test bind of port 3000 refused for lack
    of permission, start-up is not fatal. The script listens on 3000 and
    serves. *)
Lemma C7_counterexample :
  let w := boot (test_bind_fails None 3000 EACCES) ∅ in
  probe_bind (env w) (TcpPort 3000) = BindError EACCES
  /\ ~ (exists code w', startServer w = (Exit code, w') /\ code <> 0)
  /\ listens (trace (startServer w).2) = [TcpPort 3000]
  /\ (exists s, server (startServer w).2 = Some s /\ srv_listening s = true).
Proof.
  cbn zeta. split; [reflexivity|]. split; [|split].
  - intros (code & w' & H & _). vm_compute in H. discriminate H.
  - vm_compute. reflexivity.
  - eexists. split; vm_compute; reflexivity.
Qed.

(** With [PORT] unset the requested port is the number 3000 and the
    fallback is the number 3001. *)
Lemma default_port_fallback (w : world) (e : js_error) :
  env_PORT (env w) = None ->
  probe_bind (env w) (TcpPort 3000) = BindError e ->
  err_code e = Some "EADDRINUSE" ->
  listens (since w (resolve_and_listen w).2) = [TcpPort 3001].
Proof.
  intros HP Hb Hc.
  pose proof (resolve_and_listen_cases w (TcpPort 3000)) as H.
  rewrite HP in H. cbn zeta in H. specialize (H eq_refl).
  rewrite Hb in H. by rewrite bool_decide_eq_true_2 in H.
Qed.

(** A free port is the one listened on, whatever way it was requested. *)
Lemma free_port_is_used (w : world) (t : listen_target) :
  listen_target_of (js_or (env_value (env_PORT (env w))) (VNum 3000)) = inr t ->
  probe_bind (env w) t = BindListening ->
  listens (since w (resolve_and_listen w).2) = [t].
Proof.
  intros Ht Hb.
  pose proof (resolve_and_listen_cases w t Ht) as H.
  cbn zeta in H. by rewrite Hb in H.
Qed.

(** *** Plain decimal numerals as ports *)

Lemma digit_in_10 (c : ascii) : digit_in 10 c = digit_of c.
Proof. destruct c as [[] [] [] [] [] [] [] []]; reflexivity. Qed.

(** Reading the digits of a numeral consumes all of it and gives its
    value. *)
Lemma read_digits_numeral (s : string) : forall acc count n : Z,
  digits_value acc s = Some n ->
  read_digits 10 acc count s = (n, count + Z.of_nat (String.length s), EmptyString).
Proof.
  induction s as [|c s IH]; intros acc count n H; cbn [digits_value read_digits] in *.
  - injection H as ->. by rewrite Z.add_0_r.
  - rewrite digit_in_10. destruct (digit_of c) as [d|]; [|done].
    rewrite (IH _ (count + 1) _ H). f_equal. f_equal. cbn [String.length]. lia.
Qed.

(** The first character of a numeral is a digit: no white space, no sign,
    not the [I] of [Infinity]; and a numeral that starts with [0] goes on
    with a digit, not with the letter of a base. *)
Lemma numeral_is_no_other_literal (s : string) (n : Z) :
  number_of_string s = Some n ->
  skip_white_space s = s /\ blank s = false /\ read_non_decimal s = None
  /\ strip_sign s = (false, s) /\ strip_Infinity s = None.
Proof.
  destruct s as [|c s]; [done|]. unfold number_of_string. cbn [digits_value].
  destruct (digit_of c) as [d|] eqn:Hc; [|done]. intros H.
  assert (is_white_space c = false /\ strip_sign (String c s) = (false, String c s)
          /\ strip_Infinity (String c s) = None
          /\ (c <> "0"%char -> read_non_decimal (String c s) = None)) as (Hw & Hs & Hi & Hn).
  { destruct c as [[] [] [] [] [] [] [] []]; try discriminate Hc;
      (split; [reflexivity|]; split; [reflexivity|]; split; [reflexivity|]);
      first [ intros _; reflexivity | intros Hne; by destruct Hne ]. }
  cbn [skip_white_space blank]. rewrite Hw. cbn [andb].
  repeat (split; [done|]). split; [|done].
  destruct (decide (c = "0"%char)) as [->|Hne]; [|by apply Hn].
  destruct s as [|c2 s]; [reflexivity|]. cbn [digits_value] in H.
  destruct (digit_of c2) as [d2|] eqn:Hc2; [|done].
  unfold read_non_decimal.
  assert ((if Ascii.eqb c2 "x" || Ascii.eqb c2 "X" then 16
           else if Ascii.eqb c2 "o" || Ascii.eqb c2 "O" then 8
           else if Ascii.eqb c2 "b" || Ascii.eqb c2 "B" then 2 else 0) = 0) as ->.
  { destruct c2 as [[] [] [] [] [] [] [] []]; try discriminate Hc2; reflexivity. }
  by destruct (read_digits 0 0 0 s) as [[v count] rest].
Qed.

(** [Number(s)] on a numeral is its value. *)
Lemma StringToNumber_numeral (s : string) (n : Z) :
  number_of_string s = Some n -> StringToNumber s = NDecimal false n 0.
Proof.
  intros H.
  destruct (numeral_is_no_other_literal s n H) as (Hw & _ & Hn & Hs & Hi).
  unfold StringToNumber. rewrite Hw.
  destruct s as [|c s]; [done|]. rewrite Hn, Hs, Hi.
  unfold read_unsigned_decimal.
  rewrite (read_digits_numeral (String c s) 0 0 n H).
  cbn [String.length read_exponent blank].
  rewrite (proj2 (Z.eqb_neq _ _)) by lia. reflexivity.
Qed.

(** A numeral is the port of its value, when that is one. *)
Lemma listen_target_of_numeral (s : string) (n : Z) :
  number_of_string s = Some n ->
  listen_target_of (VStr s)
  = if n <=? 65535 then inr (TcpPort n) else inl ERR_SOCKET_BAD_PORT.
Proof.
  intros H. destruct (numeral_is_no_other_literal s n H) as (_ & Hb & _).
  cbn [listen_target_of]. rewrite (StringToNumber_numeral s n H), Hb.
  cbn [non_negative negb orb port_number]. change (0 <=? 0) with true. cbv iota.
  change (10 ^ 0) with 1. rewrite Z.mul_1_r.
  destruct (Z.eqb_spec n 0) as [->|Hn]; [reflexivity|].
  by destruct (n <=? 65535).
Qed.

(** Appending the digit 1 to a decimal numeral: ten times its value, plus
    one. *)
Lemma digits_value_snoc_1 (s : string) : forall acc : Z,
  digits_value acc (s +:+ "1") = (fun v => 10 * v + 1) <$> digits_value acc s.
Proof.
  induction s as [|c s IH]; intros acc; [reflexivity|].
  change (String c s +:+ "1") with (String c (s +:+ "1")).
  cbn [digits_value]. destruct (digit_of c); [apply IH | reflexivity].
Qed.

(** With [PORT] set to the numeral of [P], the fallback is the port
    [10 * P + 1] when that is a port, and a bad-port exception when it is
    not: never [P + 1], except for [P = 0]. *)
Lemma set_port_fallback (w : world) (s : string) (P : Z) (e : js_error) :
  env_PORT (env w) = Some s ->
  number_of_string s = Some P ->
  P <= 65535 ->
  probe_bind (env w) (TcpPort P) = BindError e ->
  err_code e = Some "EADDRINUSE" ->
  listens (since w (resolve_and_listen w).2)
  = if 10 * P + 1 <=? 65535 then [TcpPort (10 * P + 1)] else [].
Proof.
  intros HP Hs HP' Hb Hc.
  assert (s <> "") as Hne by (intros ->; discriminate Hs).
  assert (js_or (env_value (Some s)) (VNum 3000) = VStr s) as HPORT.
  { unfold js_or. cbn [env_value truthy].
    by rewrite (proj2 (String.eqb_neq s "") Hne). }
  assert (listen_target_of (VStr s) = inr (TcpPort P)) as Ht.
  { rewrite (listen_target_of_numeral s P Hs). by rewrite (proj2 (Z.leb_le _ _) HP'). }
  pose proof (resolve_and_listen_cases w (TcpPort P)) as H.
  rewrite HP, HPORT in H. cbn zeta in H. specialize (H Ht).
  rewrite Hb, bool_decide_eq_true_2 in H by done.
  rewrite H. change (js_add (VStr s) (VNum 1)) with (VStr (s +:+ "1")).
  assert (number_of_string (s +:+ "1") = Some (10 * P + 1)) as Hs1.
  { destruct s as [|c s]; [done|].
    change (number_of_string (String c s +:+ "1"))
      with (digits_value 0 (String c s +:+ "1")).
    rewrite digits_value_snoc_1.
    change (digits_value 0 (String c s)) with (number_of_string (String c s)).
    by rewrite Hs. }
  rewrite (listen_target_of_numeral _ _ Hs1).
  by destruct (10 * P + 1 <=? 65535).
Qed.

(** C1 (violated when [PORT] is set). [process.env.PORT] is a string, so
    [PORT + 1] is a concatenation. With PORT=8080 occupied the script asks
    to listen on "80801": no port, [listen] throws, and start-up ends with
    status 1 without any listener instead of binding 8081. With PORT=300
    occupied it listens on 3001 instead of 301. *)
Theorem C1_fallback_of_a_set_PORT_is_not_P_plus_1 :
  let w := boot (test_bind_fails (Some "8080") 8080 EADDRINUSE) ∅ in
  let w3 := boot (test_bind_fails (Some "300") 300 EADDRINUSE) ∅ in
  listen_target_of (VStr "8080") = inr (TcpPort 8080)
  /\ js_add (VStr "8080") (VNum 1) = VStr "80801"
  /\ listen_target_of (VStr "80801") = inl ERR_SOCKET_BAD_PORT
  /\ (startServer w).1 = Exit 1
  /\ listens (trace (startServer w).2) = []
  /\ server (startServer w).2 = None
  /\ listen_target_of (VStr "300") = inr (TcpPort 300)
  /\ (startServer w3).1 = Normal tt
  /\ listens (trace (startServer w3).2) = [TcpPort 3001].
Proof. cbn zeta. repeat split; vm_compute; reflexivity. Qed.

(** ** Shutdown (lines 96-105 and 230-231) *)

(** C3 (as amended). A termination signal that arrives while no listener
    exists ends the process at once with status 0. *)
Theorem C3_signal_without_listener_exits_0 (sig : signal) (w : world) :
  server w = None ->
  handle_event (Signal sig) w = (Exit 0, emit (EExit 0) w).
Proof.
  intros H. unfold handle_event, on_signal, shutdown. rewrite H. reflexivity.
Qed.

Lemma C3_signal_without_listener_exits_0_witness :
  server (boot calm ∅) = None
  /\ handle_event (Signal SIGTERM) (boot calm ∅)
     = (Exit 0, emit (EExit 0) (boot calm ∅)).
Proof.
  split; [reflexivity|].
  apply (C3_signal_without_listener_exits_0 SIGTERM (boot calm ∅)). reflexivity.
Defined.

(** C3 (as stated) fails: in the process as it boots, before any listener
    exists, a signal does not end it with a non-zero status. *)
Lemma C3_counterexample :
  server (boot calm ∅) = None
  /\ ~ (exists code w',
          handle_event (Signal SIGTERM) (boot calm ∅) = (Exit code, w') /\ code <> 0).
Proof.
  split; [reflexivity|].
  intros (code & w' & H & Hcode).
  vm_compute in H. congruence.
Qed.

(** ** Store check and initialisation (lines 13-30 and 47-71) *)

Lemma store_path : path_of_url ("file:" +:+ DB_PATH) = DB_PATH.
Proof. reflexivity. Qed.

(** [checkAndInitializeDatabase] never throws, exits or blocks. *)
Lemma checkAndInitializeDatabase_returns (w : world) :
  (checkAndInitializeDatabase w).1 = Normal tt.
Proof.
  unfold checkAndInitializeDatabase, try_catch, mbind, M_bind, fs_existsSync,
    createClient, execute, unawaited, console_log, console_error, fs_unlinkSync, mret, M_ret.
  repeat (case_match; simplify_eq/=); try done.
Qed.

(** When opening the existing store file throws, the file is deleted
    (unless [unlinkSync] fails in its turn). *)
Lemma check_deletes_store_that_does_not_open (w : world) (img : db_image) (e : js_error) :
  files w !! DB_PATH = Some img ->
  open_fault (env w) (Some img) = Some e ->
  unlink_fault (env w) = None ->
  let w' := (checkAndInitializeDatabase w).2 in
  files w' !! DB_PATH = None
  /\ since w w' = [ELog "Database corrupted, recreating..."; EUnlink DB_PATH].
Proof.
  intros Hf Ho Hu.
  unfold checkAndInitializeDatabase, try_catch, mbind, M_bind, fs_existsSync, createClient.
  rewrite store_path, Hf, bool_decide_eq_true_2 by eauto.
  cbv beta iota. rewrite Hf, Ho.
  unfold console_log, fs_unlinkSync. cbn [env emit set_trace files].
  rewrite Hu, Hf. cbn. split; [apply lookup_delete_eq | by read_trace].
Qed.

(** [initializeDatabase] hands back a client or ends the process with
    status 1; there is no third way. *)
Lemma initializeDatabase_client_or_exit_1 (w : world) :
  (exists c, (initializeDatabase w).1 = Normal c) \/ (initializeDatabase w).1 = Exit 1.
Proof.
  unfold initializeDatabase, try_catch, mbind, M_bind.
  pose proof (checkAndInitializeDatabase_returns w) as Hc.
  destruct (checkAndInitializeDatabase w) as [c w1]. cbn in Hc. subst c.
  unfold createClient, execute, await, console_log, console_error, process_exit,
    mret, M_ret, throw.
  repeat (case_match; simplify_eq/=); eauto.
Qed.

(** After such a deletion, and if the fresh store can be opened and the
    table created, [initializeDatabase] returns a client on an empty
    table. *)
Lemma initializeDatabase_recreates_empty (w : world) (img : db_image) (e : js_error) :
  files w !! DB_PATH = Some img ->
  open_fault (env w) (Some img) = Some e ->
  unlink_fault (env w) = None ->
  open_fault (env w) None = None ->
  exec_fault (env w) CreateUserData = None ->
  (initializeDatabase w).1 = Normal {| client_url := "file:" +:+ DB_PATH |}
  /\ files (initializeDatabase w).2 !! DB_PATH
     = Some (Database (Some {| tbl_rows := []; tbl_seq := 0 |})).
Proof.
  intros Hf Ho Hu Ho' Hx.
  destruct (check_deletes_store_that_does_not_open w img e Hf Ho Hu) as [Hgone _].
  pose proof (checkAndInitializeDatabase_returns w) as Hc.
  assert (env (checkAndInitializeDatabase w).2 = env w) as Henv.
  { unfold checkAndInitializeDatabase, try_catch, mbind, M_bind, fs_existsSync, createClient.
    rewrite store_path, Hf, bool_decide_eq_true_2 by eauto.
    cbv beta iota. rewrite Hf, Ho.
    unfold console_log, fs_unlinkSync. cbn [env emit set_trace files].
    by rewrite Hu, Hf. }
  unfold initializeDatabase, try_catch, mbind, M_bind.
  destruct (checkAndInitializeDatabase w) as [c w1]. cbn in Hc, Hgone, Henv. subst c.
  unfold createClient. rewrite store_path, Hgone, Henv, Ho'.
  unfold execute. cbn [client_url env emit set_trace files].
  rewrite store_path, Hgone, Henv, Hx.
  cbn. split; [done | apply lookup_insert_eq].
Qed.

(** A store of garbage that the client refuses to open: start-up deletes
    it, recreates an empty table and goes on to listen. *)
Example startServer_recovers_from_store_that_does_not_open :
  let w := boot opens_eagerly {[ DB_PATH := Garbage ]} in
  (startServer w).1 = Normal tt
  /\ unlinks (trace (startServer w).2) = [DB_PATH]
  /\ files (startServer w).2 !! DB_PATH
     = Some (Database (Some {| tbl_rows := []; tbl_seq := 0 |}))
  /\ listens (trace (startServer w).2) = [TcpPort 3000].
Proof. cbn zeta. repeat split; vm_compute; reflexivity. Qed.

(** The check on a store file that the client opens: the probe is sent
    and that is all. The probe names no table and reads nothing, so it is
    rejected only by a fault of the storage, and then nobody is there to
    see the rejection. *)
Lemma check_on_store_that_exists_and_opens (w : world) (img : db_image) :
  files w !! DB_PATH = Some img ->
  open_fault (env w) (Some img) = None ->
  checkAndInitializeDatabase w
  = (Normal tt,
     match exec_fault (env w) Select1 with
     | Some e => set_unhandled (unhandled w ++ [e]) (emit (EExecute Select1) w)
     | None => emit (EExecute Select1) w
     end).
Proof.
  intros Hf Ho.
  unfold checkAndInitializeDatabase, try_catch, mbind, M_bind, fs_existsSync, createClient.
  rewrite store_path, Hf, bool_decide_eq_true_2 by eauto.
  cbv beta iota. rewrite Hf, Ho.
  unfold execute. cbn [env emit set_trace files client_url].
  rewrite store_path, Hf.
  destruct (exec_fault (env w) Select1) as [e|]; [reflexivity|].
  by destruct img as [|[tbl|]].
Qed.

(** C2 (violated on a corrupted store). The store file exists and holds
    bytes that are no database; the client opens it without reading it.
    The probe [SELECT 1] of the check does not read the file either and
    succeeds, so the check finds nothing wrong and deletes nothing. The
    first statement that needs the file, CREATE TABLE, then fails on it, and
    start-up ends with status 1 with the file as it was and without
    listening, instead of recreating the store and serving. (The last part
    of the claim does hold: a failed initialisation ends the process with
    status 1.) *)
Theorem C2_corrupted_store_is_not_recreated (w : world) :
  files w !! DB_PATH = Some Garbage ->
  open_fault (env w) (Some Garbage) = None ->
  let not_a_db := LibsqlError "SQLITE_NOTADB" "file is not a database" in
  let checked := checkAndInitializeDatabase w in
  let r := startServer w in
  (exec_fault (env w) Select1 = None ->
   (execute store_client Select1 w).1 = Normal (Resolved no_rows)
   /\ since w checked.2 = [EExecute Select1]
   /\ unhandled checked.2 = unhandled w)
  /\ checked.1 = Normal tt
  /\ files checked.2 = files w
  /\ r.1 = Exit 1
  /\ files r.2 = files w
  /\ server r.2 = server w
  /\ unlinks (since w r.2) = []
  /\ listens (since w r.2) = []
  /\ exists e, since w r.2 = [EExecute Select1; EExecute CreateUserData;
                              EError "Error initializing database:" e; EExit 1]
               /\ (exec_fault (env w) CreateUserData = None -> e = not_a_db).
Proof.
  intros Hf Ho not_a_db checked r. subst not_a_db checked r.
  pose proof (check_on_store_that_exists_and_opens w Garbage Hf Ho) as Hcheck.
  split; [|split; [|split]].
  - intros Hx. rewrite Hcheck, Hx. cbn [fst snd]. split; [|split; [by read_trace|done]].
    unfold execute, store_client. cbn [env emit set_trace files client_url].
    by rewrite store_path, Hx, Hf.
  - by rewrite Hcheck.
  - rewrite Hcheck. by destruct (exec_fault (env w) Select1).
  - unfold startServer, initializeDatabase, try_catch, mbind, M_bind. rewrite Hcheck.
    set (w1 := match exec_fault (env w) Select1 with
               | Some e => set_unhandled (unhandled w ++ [e]) (emit (EExecute Select1) w)
               | None => emit (EExecute Select1) w
               end).
    assert (env w1 = env w /\ files w1 = files w /\ server w1 = server w
            /\ trace w1 = trace w ++ [EExecute Select1]) as (Henv & Hfiles & Hsrv & Htr).
    { subst w1. by destruct (exec_fault (env w) Select1). }
    unfold createClient. rewrite store_path, Hfiles, Henv, Hf, Ho.
    unfold execute. cbn [env emit set_trace files client_url].
    rewrite store_path, Hfiles, Henv, Hf.
    destruct (exec_fault (env w) CreateUserData) as [e|];
      cbn [default from_option id run_stmt await throw console_error process_exit
           mbind M_bind fst snd files server emit set_trace];
      (split; [done|]; split; [done|]; split; [done|]);
      (split; [by read_trace_from Htr|]; split; [by read_trace_from Htr|]);
      eexists; (split; [by read_trace_from Htr|]); done.
Qed.

(** The process as it boots next to a store file of garbage, with nothing
    else going wrong. *)
Lemma C2_corrupted_store_is_not_recreated_witness :
  let w := boot calm {[ DB_PATH := Garbage ]} in
  files w !! DB_PATH = Some Garbage
  /\ (startServer w).1 = Exit 1
  /\ files (startServer w).2 = files w
  /\ unlinks (since w (startServer w).2) = []
  /\ listens (since w (startServer w).2) = [].
Proof.
  cbn zeta.
  assert (files (boot calm {[ DB_PATH := Garbage ]}) !! DB_PATH = Some Garbage) as Hf
    by (vm_compute; reflexivity).
  split; [exact Hf|].
  destruct (C2_corrupted_store_is_not_recreated (boot calm {[ DB_PATH := Garbage ]})
              Hf eq_refl) as (_ & _ & _ & H1 & H2 & _ & H3 & H4 & _).
  by repeat split.
Defined.

(** ** Draining (lines 96-105 and 230-231) *)

Lemma admitted_app (l k : list effect) : admitted (l ++ k) = (admitted l + admitted k)%nat.
Proof. unfold admitted. by rewrite omap_app, length_app. Qed.

Lemma ended_cons (e : event) (es : list event) :
  ended (e :: es) = (match e with ConnectionEnds => 1 | _ => 0 end + ended es)%nat.
Proof. by destruct e. Qed.

(** ['close'] listeners are all the closure of [shutdown]: the first one
    ends the process with status 0. *)
Lemma run_callbacks_exits (cbs : list callback) (w : world) :
  cbs <> [] ->
  run_callbacks cbs w
  = (Exit 0, emit (EExit 0) (emit (ELog "Server shut down gracefully") w)).
Proof. destruct cbs as [|[] rest]; [done|]. reflexivity. Qed.

(** The signal on a listening server: it stops listening at once and
    exits with status 0 if nothing is open, else it starts draining. *)
Lemma signal_while_listening (sig : signal) (w : world) (s : http_server) :
  server w = Some s -> srv_listening s = true ->
  match srv_connections s with
  | O => handle_event (Signal sig) w
         = (Exit 0,
            emit (EExit 0) (emit (ELog "Server shut down gracefully")
              (set_server (Some {| srv_target := srv_target s; srv_listening := false;
                                   srv_connections := 0%nat; srv_on_close := [] |})
                 (emit EStopListening w))))
  | S k => exists w', handle_event (Signal sig) w = (Normal tt, w')
                      /\ draining w' (S k)
                      /\ trace w' = trace w ++ [EStopListening]
  end.
Proof.
  intros Hs Hl.
  unfold handle_event, on_signal, shutdown, server_close. rewrite Hs, Hl.
  unfold emit_close_if_drained. cbn [server set_server emit set_trace srv_listening
    srv_connections srv_on_close srv_target].
  destruct (srv_connections s) as [|k] eqn:Hk.
  - cbn [orb Nat.eqb negb]. by rewrite run_callbacks_exits by (by destruct (srv_on_close s)).
  - cbn [orb Nat.eqb negb]. eexists. split; [reflexivity|]. split; [|done].
    eexists. cbn. split; [done|]. split; [done|].
    split; [by destruct (srv_on_close s)|done].
Qed.

(** While draining, a further signal changes nothing observable, ... *)
Lemma signal_while_draining (sig : signal) (w : world) (k : nat) :
  draining w (S k) ->
  exists w', handle_event (Signal sig) w = (Normal tt, w')
             /\ draining w' (S k) /\ trace w' = trace w.
Proof.
  intros (s & Hs & Hl & Hc & Hk).
  unfold handle_event, on_signal, shutdown, server_close. rewrite Hs, Hl.
  unfold emit_close_if_drained. cbn [server set_server srv_listening srv_connections].
  rewrite Hk. cbn [orb Nat.eqb negb]. eexists. split; [reflexivity|]. split; [|done].
  eexists. cbn. split; [done|]. split; [done|].
  split; [by destruct (srv_on_close s)|done].
Qed.

(** ... a connection attempt is refused, ... *)
Lemma arrival_while_draining (w : world) (k : nat) :
  draining w k ->
  handle_event ConnectionArrives w = (Normal tt, emit ERefuse w).
Proof.
  intros (s & Hs & Hl & _). unfold handle_event, connection_arrives. by rewrite Hs, Hl.
Qed.

(** ... and the end of a connection either leaves others open or, if it
    was the last, ends the process with status 0. *)
Lemma end_while_draining (w : world) (k : nat) :
  draining w (S k) ->
  match k with
  | O => exists w', handle_event ConnectionEnds w = (Exit 0, w')
                    /\ (exists s', server w' = Some s' /\ srv_listening s' = false
                                   /\ srv_connections s' = 0%nat)
                    /\ trace w' = trace w ++ [ELog "Server shut down gracefully"; EExit 0]
  | S k' => exists w', handle_event ConnectionEnds w = (Normal tt, w')
                       /\ draining w' (S k') /\ trace w' = trace w
  end.
Proof.
  intros (s & Hs & Hl & Hc & Hk).
  unfold handle_event, connection_ends. rewrite Hs.
  unfold emit_close_if_drained. cbn [server set_server srv_listening srv_connections
    srv_on_close srv_target].
  rewrite Hl, Hk. destruct k as [|k']; cbn [orb Nat.eqb negb Nat.pred].
  - rewrite run_callbacks_exits by done. eexists. split; [reflexivity|]. split.
    + eexists. cbn. done.
    + cbn. by rewrite <- app_assoc.
  - eexists. split; [reflexivity|]. split; [|done]. eexists. cbn. done.
Qed.

(** A draining process, run through any further events: nothing is
    admitted; while fewer connections have ended than were open it stays
    alive with the remainder, and with the last one it exits with 0. *)
Lemma drain_run (es : list event) : forall (k : nat) (w : world),
  draining w (S k) ->
  exists new, trace (run_events es w).2 = trace w ++ new
    /\ admitted new = 0%nat
    /\ if decide (S k <= ended es)%nat
       then (run_events es w).1 = Exit 0
            /\ exists s', server (run_events es w).2 = Some s'
                          /\ srv_listening s' = false /\ srv_connections s' = 0%nat
       else (run_events es w).1 = Normal tt
            /\ draining (run_events es w).2 (S k - ended es).
Proof.
  induction es as [|e es IH]; intros k w Hd.
  - exists []. rewrite app_nil_r. cbn. split; [done|]. split; [done|].
    split; [done|]. by rewrite ?Nat.sub_0_r.
  - cbn [run_events]. unfold mbind, M_bind. rewrite ended_cons.
    destruct e as [sig| |].
    + destruct (signal_while_draining sig w k Hd) as (w' & -> & Hd' & Ht).
      destruct (IH k w' Hd') as (new & Hnew & Hadm & Hres).
      exists new. rewrite Hnew, Ht. by repeat split.
    + rewrite (arrival_while_draining w (S k) Hd).
      assert (draining (emit ERefuse w) (S k)) as Hd' by exact Hd.
      destruct (IH k _ Hd') as (new & Hnew & Hadm & Hres).
      exists (ERefuse :: new). rewrite Hnew. cbn [emit set_trace trace].
      rewrite <- app_assoc. by repeat split.
    + pose proof (end_while_draining w k Hd) as He. destruct k as [|k'].
      * destruct He as (w' & -> & Hs' & Ht). cbn [fst snd].
        eexists. split; [exact Ht|]. split; [done|].
        rewrite decide_True by lia. done.
      * destruct He as (w' & -> & Hd' & Ht).
        destruct (IH k' w' Hd') as (new & Hnew & Hadm & Hres).
        exists new. rewrite Hnew, Ht. split; [done|]. split; [done|].
        destruct (decide (S k' <= ended es)%nat) as [Hle|Hgt].
        -- rewrite decide_True by lia. done.
        -- rewrite decide_False by lia.
           replace (S (S k') - (1 + ended es))%nat with (S k' - ended es)%nat by lia.
           done.
Qed.

(** C5. SIGINT or SIGTERM on a listening server: the first thing that
    happens is that the server stops listening, and no connection is
    admitted from then on, whatever events follow; as long as fewer
    connections have ended than were open at the signal the process stays
    alive with the remaining ones; once they have all ended (at once, if
    none was open) the process exits, with status 0. *)
Theorem C5_signal_drains_then_exits_0
    (sig : signal) (w : world) (s : http_server) (es : list event) :
  server w = Some s -> srv_listening s = true ->
  let r := run_events (Signal sig :: es) w in
  head (since w r.2) = Some EStopListening
  /\ admitted (since w r.2) = 0%nat
  /\ exists s', server r.2 = Some s' /\ srv_listening s' = false
     /\ if decide (srv_connections s <= ended es)%nat
        then r.1 = Exit 0 /\ srv_connections s' = 0%nat
        else r.1 = Normal tt
             /\ srv_connections s' = (srv_connections s - ended es)%nat.
Proof.
  intros Hs Hl r. subst r. cbn [run_events]. unfold mbind, M_bind.
  pose proof (signal_while_listening sig w s Hs Hl) as H.
  destruct (srv_connections s) as [|k] eqn:Hk.
  - rewrite H. cbn [fst snd].
    split; [by read_trace|]. split; [by read_trace|].
    eexists. rewrite decide_True by lia. cbn. done.
  - destruct H as (w' & -> & Hd & Ht).
    destruct (drain_run es k w' Hd) as (new & Hnew & Hadm & Hres).
    rewrite Ht, <- app_assoc in Hnew.
    rewrite (since_app _ _ _ Hnew).
    split; [done|]. split; [done|].
    destruct (decide (S k <= ended es)%nat).
    + destruct Hres as (Hexit & s' & Hs' & Hl' & Hc'). by exists s'.
    + destruct Hres as (Hlive & s' & Hs' & Hl' & _ & Hc'). by exists s'.
Qed.

(** Three requests in flight, a late connection attempt, and the three
    requests ending one after the other. *)
Lemma C5_signal_drains_then_exits_0_witness :
  let es := [ConnectionEnds; ConnectionArrives; ConnectionEnds; ConnectionEnds] in
  let r := run_events (Signal SIGINT :: es) (serving 3) in
  head (since (serving 3) r.2) = Some EStopListening
  /\ admitted (since (serving 3) r.2) = 0%nat
  /\ exists s', server r.2 = Some s' /\ srv_listening s' = false
     /\ r.1 = Exit 0 /\ srv_connections s' = 0%nat.
Proof.
  exact (C5_signal_drains_then_exits_0 SIGINT (serving 3) _
           [ConnectionEnds; ConnectionArrives; ConnectionEnds; ConnectionEnds]
           eq_refl eq_refl).
Defined.

(** ** The bounded outbound call (lines 108-123) *)

Lemma wf_boot (e : environment) (fs : gmap string db_image) : wf (boot e fs).
Proof. split; [constructor | intros c Hc; cbn in Hc; set_solver]. Qed.

(** Among earlier timers, the one just armed for a fresh controller is the
    only one that aborts it. *)
Lemma earliest_abort_fresh (c id : nat) (due : Z) (ts : list timer) :
  Forall (fun t => (timer_aborts t < c)%nat) ts ->
  earliest_abort c (ts ++ [{| timer_id := id; timer_due := due; timer_aborts := c |}])
  = Some due.
Proof.
  intros Hts. unfold earliest_abort. rewrite foldr_app. cbn [foldr timer_aborts timer_due].
  rewrite bool_decide_eq_true_2 by done.
  induction Hts as [|t ts Ht _ IH]; [done|].
  cbn [foldr]. rewrite bool_decide_eq_false_2 by lia. exact IH.
Qed.


Section BoundedCall.

(** One call [fetchWithTimeout(url, options, timeout)] in a world whose
    ids are well-formed. Its controller is [fresh w], its timer
    [S (fresh w)], its deadline [clock w + deadline_of timeout]. *)
Variables (url : string) (options : fetch_options) (timeout : option Z).
Variable w : world.
Hypothesis Hwf : wf w.

(** The call, step by step: a controller and a timer are created, the
    request goes out, and the await resumes at the earlier of the
    upstream settling and the deadline; in both branches the timer is
    cleared. *)
Lemma fetchWithTimeout_run :
  fetchWithTimeout url options timeout w =
    match upstream (env w) (call_request url options) with
    | Responds latency r =>
        if latency <? deadline_of timeout
        then (Normal r, call_settled url options timeout w (clock w + latency))
        else (Throw AbortError,
              call_settled url options timeout w (clock w + deadline_of timeout))
    | Fails latency e =>
        if latency <? deadline_of timeout
        then (Throw e, call_settled url options timeout w (clock w + latency))
        else (Throw AbortError,
              call_settled url options timeout w (clock w + deadline_of timeout))
    | Hangs =>
        (Throw AbortError,
         call_settled url options timeout w (clock w + deadline_of timeout))
    end.
Proof.
  destruct Hwf as [Hts Hab].
  unfold fetchWithTimeout, mbind, M_bind, new_AbortController, setTimeout_abort,
    try_catch, fetch.
  cbn [aborted set_fresh set_timers fresh timers clock env emit set_trace].
  rewrite bool_decide_eq_false_2 by (intros Hin; apply Hab in Hin; lia).
  unfold abort_time. cbn [timers emit set_trace set_fresh set_timers].
  fold (deadline_of timeout). fold (call_request url options).
  rewrite earliest_abort_fresh
    by (eapply Forall_impl; [exact Hts | intros x [_ Hx]; exact Hx]).
  cbn [clock env emit set_trace set_fresh set_timers].
  destruct (upstream (env w) (call_request url options)) as [latency r|latency e|].
  - destruct (Z.ltb_spec latency (deadline_of timeout)) as [Hlt|Hge].
    + rewrite (proj2 (Z.ltb_lt _ _)) by lia. reflexivity.
    + rewrite (proj2 (Z.ltb_ge _ _)) by lia. reflexivity.
  - destruct (Z.ltb_spec latency (deadline_of timeout)) as [Hlt|Hge].
    + rewrite (proj2 (Z.ltb_lt _ _)) by lia. reflexivity.
    + rewrite (proj2 (Z.ltb_ge _ _)) by lia. reflexivity.
  - reflexivity.
Qed.

(** The world in which the call has settled at [time]: the request is
    the one thing emitted, the timer of the call is gone, what is left
    are earlier timers, and the signal of the call is aborted exactly if
    the deadline was reached. *)
Lemma settled_world (time : Z) :
  let w2 := call_settled url options timeout w time in
  trace w2 = trace w ++ [EFetch (call_request url options)]
  /\ fresh w2 = S (S (fresh w))
  /\ Forall (fun x => (timer_id x < fresh w)%nat /\ (timer_aborts x < fresh w)%nat)
            (timers w2)
  /\ (forall c, c ∈ aborted w2 -> (c <= fresh w)%nat)
  /\ (fresh w ∈ aborted w2 <-> clock w + deadline_of timeout <= time).
Proof.
  destruct Hwf as [Hts Hab]. intros w2.
  rewrite Forall_forall in Hts.
  split; [reflexivity|]. split; [reflexivity|]. split; [|split].
  - apply Forall_forall. intros x Hx. subst w2. cbn in Hx.
    apply list_elem_of_filter in Hx as [Hid Hx].
    apply list_elem_of_filter in Hx as [_ Hx].
    apply elem_of_app in Hx as [Hx|Hx]; [by apply Hts|].
    apply list_elem_of_singleton in Hx. subst x. by cbn in Hid.
  - intros c Hc. subst w2. cbn in Hc.
    apply elem_of_union in Hc as [Hc|Hc].
    { apply Hab in Hc. lia. }
    apply elem_of_list_to_set, list_elem_of_fmap in Hc as (x & -> & Hx).
    apply list_elem_of_filter in Hx as [_ Hx].
    apply elem_of_app in Hx as [Hx|Hx].
    + apply Hts in Hx. lia.
    + apply list_elem_of_singleton in Hx. by subst x.
  - subst w2. cbn. rewrite elem_of_union, elem_of_list_to_set, list_elem_of_fmap.
    split.
    + intros [Hc|(x & Hc & Hx)]; [apply Hab in Hc; lia|].
      apply list_elem_of_filter in Hx as [Hdue Hx].
      apply elem_of_app in Hx as [Hx|Hx].
      * apply Hts in Hx. lia.
      * apply list_elem_of_singleton in Hx. by subst x.
    + intros Hle. right.
      exists {| timer_id := S (fresh w);
                timer_due := clock w + deadline_of timeout;
                timer_aborts := fresh w |}.
      split; [done|].
      apply list_elem_of_filter. split; [done|].
      apply elem_of_app. right. by apply list_elem_of_singleton.
Qed.

(** The call always settles, at some time, by returning or by throwing;
    if that time is the deadline or later, it throws the AbortError. *)
Lemma fetchWithTimeout_settles :
  exists (time : Z) (res : completion response),
    fetchWithTimeout url options timeout w
    = (res, call_settled url options timeout w time)
    /\ ((exists r, res = Normal r) \/ (exists e, res = Throw e))
    /\ (clock w + deadline_of timeout <= time -> res = Throw AbortError).
Proof.
  rewrite fetchWithTimeout_run.
  destruct (upstream (env w) (call_request url options)) as [latency r|latency e|].
  - destruct (Z.ltb_spec latency (deadline_of timeout)).
    + exists (clock w + latency), (Normal r). split; [done|]. split; [eauto|lia].
    + eexists _, (Throw AbortError). split; [done|]. split; eauto.
  - destruct (Z.ltb_spec latency (deadline_of timeout)).
    + exists (clock w + latency), (Throw e). split; [done|]. split; [eauto|lia].
    + eexists _, (Throw AbortError). split; [done|]. split; eauto.
  - eexists _, (Throw AbortError). split; [done|]. split; eauto.
Qed.

(** Ids stay well-formed across a call. *)
Lemma fetchWithTimeout_wf : wf (fetchWithTimeout url options timeout w).2.
Proof.
  destruct fetchWithTimeout_settles as (time & res & -> & _ & _).
  destruct (settled_world time) as (_ & Hfresh & Hts & Hab & _).
  cbn [snd]. split.
  - eapply Forall_impl; [exact Hts|]. intros x [? ?]. rewrite Hfresh. lia.
  - intros c Hc. apply Hab in Hc. rewrite Hfresh. lia.
Qed.


End BoundedCall.


(** ** The proxy handler (lines 164-207) *)

(** The handler, by completion of the bounded call. *)
Lemma post_proxy_ai_run (req : request) (w : world) (v : jsval) :
  prop_value (req_body req) "input_value" = Some v ->
  let call := fetchWithTimeout AI_URL (ai_options v) (Some 30000)
                (emit (ELog "Attempting to connect to AI API...") w) in
  let fail (error : js_error) (w' : world) : completion unit * world :=
    (Normal tt,
     emit (if String.eqb (err_name error) "AbortError"
           then ERespond 504 (error_body "Request timeout - AI service is not responding")
           else ERespond 500 (error_body "Failed to process AI request"))
          (emit (EError "Error calling AI API:" error) w')) in
  post_proxy_ai req w =
    match call.1 with
    | Normal response =>
        if resp_ok response then
          match resp_body response with
          | BodyJson data => (Normal tt, emit (ERespond 200 (PJson data)) call.2)
          | BodyError e => fail e call.2
          | BodyHangs => (Pending, call.2)
          end
        else fail (Error ("API responded with status: " +:+ pretty (resp_status response)))
                  call.2
    | Throw e => fail e call.2
    | Exit code => (Exit code, call.2)
    | Pending => (Pending, call.2)
    end.
Proof.
  intros Hv call fail. subst call fail.
  unfold post_proxy_ai, try_catch, mbind, M_bind, console_log, get_prop. rewrite Hv.
  unfold mret, M_ret.
  destruct (fetchWithTimeout AI_URL (ai_options v) (Some 30000)
              (emit (ELog "Attempting to connect to AI API...") w)) as [[r|e|code|] w'];
    cbn [fst snd]; try reflexivity.
  - destruct (resp_ok r); cbn [negb].
    + unfold response_json. destruct (resp_body r) as [data|e|]; cbn.
      * reflexivity.
      * destruct (String.eqb (err_name e) "AbortError"); reflexivity.
      * reflexivity.
    + reflexivity.
  - unfold console_error, res_status_json. cbn.
    destruct (String.eqb (err_name e) "AbortError"); reflexivity.
Qed.

(** Without a body to read [input_value] from, nothing is sent and the
    answer is the generic 500. *)
Lemma post_proxy_ai_no_body (req : request) (w : world) :
  prop_value (req_body req) "input_value" = None ->
  since w (post_proxy_ai req w).2
  = [ELog "Attempting to connect to AI API...";
     EError "Error calling AI API:"
       (TypeError ("Cannot read properties of " +:+ to_string (req_body req)
                   +:+ " (reading 'input_value')"));
     ERespond 500 (error_body "Failed to process AI request")].
Proof.
  intros Hv. unfold post_proxy_ai, try_catch, mbind, M_bind, console_log, get_prop.
  rewrite Hv. by read_trace.
Qed.

(** The bounded call of the handler: what is sent, and how it completes
    given the behaviour of the upstream. *)
Lemma proxy_call (w : world) (v : jsval) :
  wf w ->
  let call := fetchWithTimeout AI_URL (ai_options v) (Some 30000)
                (emit (ELog "Attempting to connect to AI API...") w) in
  trace call.2
  = trace w ++ [ELog "Attempting to connect to AI API..."; EFetch (ai_request v)]
  /\ call.1 = match upstream (env w) (ai_request v) with
              | Responds latency r =>
                  if latency <? 30000 then Normal r else Throw AbortError
              | Fails latency e =>
                  if latency <? 30000 then Throw e else Throw AbortError
              | Hangs => Throw AbortError
              end.
Proof.
  intros Hwf call. subst call.
  assert (wf (emit (ELog "Attempting to connect to AI API...") w)) as Hwf' by exact Hwf.
  rewrite (fetchWithTimeout_run _ _ _ _ Hwf').
  change (deadline_of (Some 30000)) with 30000.
  change (call_request AI_URL (ai_options v)) with (ai_request v).
  cbn [env emit set_trace].
  destruct (upstream (env w) (ai_request v)) as [latency r|latency e|];
    try destruct (latency <? 30000); cbn [fst snd];
    (split; [cbn; by rewrite <- ?app_assoc | reflexivity]).
Qed.

(** The handler keeps ids well-formed: the worlds it is run in stay within
    the hypothesis of the results below. *)
Lemma post_proxy_ai_wf (req : request) (w : world) :
  wf w -> wf (post_proxy_ai req w).2.
Proof.
  intros Hwf.
  destruct (prop_value (req_body req) "input_value") as [v|] eqn:Hv.
  - rewrite (post_proxy_ai_run req w v Hv).
    assert (wf (emit (ELog "Attempting to connect to AI API...") w)) as Hwf' by exact Hwf.
    pose proof (fetchWithTimeout_wf AI_URL (ai_options v) (Some 30000) _ Hwf') as H.
    destruct (fetchWithTimeout AI_URL (ai_options v) (Some 30000)
                (emit (ELog "Attempting to connect to AI API...") w))
      as [[r|e|code|] w']; cbn [fst snd] in H |- *; try exact H.
    destruct (resp_ok r); [destruct (resp_body r)|]; exact H.
  - unfold post_proxy_ai, try_catch, mbind, M_bind, console_log, get_prop.
    rewrite Hv. exact Hwf.
Qed.

(** C4. The answer of the proxy handler, in a world with well-formed ids,
    is fixed by how the outbound call ends. No body to take [input_value]
    from: the generic 500, nothing sent. Deadline reached (the upstream
    hangs, or takes 30000 ms or more): 504. Upstream status outside
    200-299: the generic 500, whatever the status. Network failure, or a
    body that cannot be read as JSON: the generic 500, whatever the error.
    The two failure bodies are constants of the script and do not contain
    the API key. *)
Theorem C4_proxy_failures_map_to_504_and_generic_500 (req : request) (w : world) :
  wf w ->
  let r := post_proxy_ai req w in
  let timed_out := [(504, error_body "Request timeout - AI service is not responding")] in
  let generic := [(500, error_body "Failed to process AI request")] in
  index 0 AI_KEY "Request timeout - AI service is not responding" = None
  /\ index 0 AI_KEY "Failed to process AI request" = None
  /\ match prop_value (req_body req) "input_value" with
     | None => responses (since w r.2) = generic
     | Some v =>
         match upstream (env w) (ai_request v) with
         | Hangs => responses (since w r.2) = timed_out
         | Responds latency response =>
             if latency <? 30000 then
               if resp_ok response then
                 match resp_body response with
                 | BodyJson data => responses (since w r.2) = [(200, PJson data)]
                 | BodyError e =>
                     err_name e <> "AbortError" -> responses (since w r.2) = generic
                 | BodyHangs => responses (since w r.2) = []
                 end
               else responses (since w r.2) = generic
             else responses (since w r.2) = timed_out
         | Fails latency e =>
             if latency <? 30000
             then err_name e <> "AbortError" -> responses (since w r.2) = generic
             else responses (since w r.2) = timed_out
         end
     end.
Proof.
  intros Hwf r timed_out generic. subst r timed_out generic.
  split; [reflexivity|]. split; [reflexivity|].
  destruct (prop_value (req_body req) "input_value") as [v|] eqn:Hv.
  2: { by rewrite (post_proxy_ai_no_body req w Hv). }
  rewrite (post_proxy_ai_run req w v Hv).
  destruct (proxy_call w v Hwf) as [Htrace Hcall].
  rewrite Hcall.
  destruct (upstream (env w) (ai_request v)) as [latency response|latency e|].
  - destruct (latency <? 30000).
    + destruct (resp_ok response).
      * destruct (resp_body response) as [data|e|].
        -- by read_trace_from Htrace.
        -- intros Hname. apply String.eqb_neq in Hname. rewrite Hname.
           by read_trace_from Htrace.
        -- by read_trace_from Htrace.
      * by read_trace_from Htrace.
    + by read_trace_from Htrace.
  - destruct (latency <? 30000).
    + intros Hname. apply String.eqb_neq in Hname. rewrite Hname.
      by read_trace_from Htrace.
    + by read_trace_from Htrace.
  - by read_trace_from Htrace.
Qed.

(** The upstream answers 503 after 120 ms: the caller gets the generic
    500. *)
Lemma C4_proxy_failures_map_to_504_and_generic_500_witness :
  let w := boot (with_upstream
                   (Responds 120 {| resp_status := 503; resp_body := BodyJson VNull |})) ∅ in
  let req := {| req_headers := []; req_body := VObj {[ "input_value" := VStr "hello" ]} |} in
  index 0 AI_KEY "Request timeout - AI service is not responding" = None
  /\ index 0 AI_KEY "Failed to process AI request" = None
  /\ responses (since w (post_proxy_ai req w).2)
     = [(500, error_body "Failed to process AI request")].
Proof.
  exact (C4_proxy_failures_map_to_504_and_generic_500
           {| req_headers := []; req_body := VObj {[ "input_value" := VStr "hello" ]} |}
           (boot (with_upstream
                    (Responds 120 {| resp_status := 503; resp_body := BodyJson VNull |})) ∅)
           (wf_boot _ _)).
Defined.

(** What the handler sends upstream. *)
Lemma proxy_sends (req : request) (w : world) :
  wf w ->
  fetches (since w (post_proxy_ai req w).2)
  = match prop_value (req_body req) "input_value" with
    | Some v => [ai_request v]
    | None => []
    end.
Proof.
  intros Hwf.
  destruct (prop_value (req_body req) "input_value") as [v|] eqn:Hv.
  2: { by rewrite (post_proxy_ai_no_body req w Hv). }
  rewrite (post_proxy_ai_run req w v Hv).
  destruct (proxy_call w v Hwf) as [Htrace _].
  destruct (fetchWithTimeout AI_URL (ai_options v) (Some 30000)
              (emit (ELog "Attempting to connect to AI API...") w))
    as [[r|e|code|] w']; cbn [fst snd] in Htrace |- *.
  - destruct (resp_ok r); [destruct (resp_body r)|];
      try destruct (String.eqb _ _); by read_trace_from Htrace.
  - destruct (String.eqb _ _); by read_trace_from Htrace.
  - by read_trace_from Htrace.
  - by read_trace_from Htrace.
Qed.

(** C10. What the proxy handler sends upstream (URL, method, headers and
    body) is a function of [req.body.input_value] alone: two requests that
    agree on it, with whatever other fields and headers and in whatever
    worlds with well-formed ids, lead to the same outbound requests, namely
    the one request built from that value, or none when there is no body
    to read it from. *)
Theorem C10_outbound_request_depends_on_input_value_only
    (req1 req2 : request) (w1 w2 : world) :
  wf w1 -> wf w2 ->
  prop_value (req_body req1) "input_value" = prop_value (req_body req2) "input_value" ->
  fetches (since w1 (post_proxy_ai req1 w1).2) = fetches (since w2 (post_proxy_ai req2 w2).2)
  /\ fetches (since w1 (post_proxy_ai req1 w1).2)
     = match prop_value (req_body req1) "input_value" with
       | Some v => [ai_request v]
       | None => []
       end.
Proof.
  intros Hwf1 Hwf2 Heq.
  rewrite (proxy_sends req1 w1 Hwf1), (proxy_sends req2 w2 Hwf2), Heq. done.
Qed.

(** Two requests with the same [input_value], different other fields and
    headers, against different upstreams. *)
Lemma C10_outbound_request_depends_on_input_value_only_witness :
  let req1 := {| req_headers := [("authorization", "Bearer a")];
                 req_body := VObj {[ "input_value" := VStr "hello" ]} |} in
  let req2 := {| req_headers := [("x-api-key", "other")];
                 req_body := VObj (<[ "output_type" := VStr "json" ]>
                                     {[ "input_value" := VStr "hello" ]}) |} in
  let w1 := boot calm ∅ in
  let w2 := boot (with_upstream Hangs) ∅ in
  fetches (since w1 (post_proxy_ai req1 w1).2) = fetches (since w2 (post_proxy_ai req2 w2).2)
  /\ fetches (since w1 (post_proxy_ai req1 w1).2) = [ai_request (VStr "hello")].
Proof.
  exact (C10_outbound_request_depends_on_input_value_only
           {| req_headers := [("authorization", "Bearer a")];
              req_body := VObj {[ "input_value" := VStr "hello" ]} |}
           {| req_headers := [("x-api-key", "other")];
              req_body := VObj (<[ "output_type" := VStr "json" ]>
                                  {[ "input_value" := VStr "hello" ]}) |}
           (boot calm ∅) (boot (with_upstream Hangs) ∅)
           (wf_boot _ _) (wf_boot _ _) eq_refl).
Defined.

(** ** The storage handlers (lines 131-161) *)

#[local] Instance created_desc_trans : Transitive created_desc.
Proof. intros a b c. unfold created_desc. lia. Qed.

#[local] Instance created_desc_total : Total created_desc.
Proof. intros a b. unfold created_desc. lia. Qed.

(** C8. GET /api/user-data always answers exactly once and completes.
    When the storage answers the listing query, the answer is a 200 whose
    body holds all the stored rows (a permutation of the table) by
    descending creation time; when it does not (no client, a failing
    statement, no table, a file that is no database), the answer is the
    generic 500. *)
Theorem C8_get_user_data_lists_newest_first (req : request) (w : world) :
  let r := get_user_data req w in
  r.1 = Normal tt
  /\ match stored_rows w with
     | Some rows =>
         exists rs, responses (since w r.2) = [(200, PRows rs)]
                    /\ StronglySorted created_desc rs
                    /\ rs ≡ₚ rows
     | None =>
         responses (since w r.2) = [(500, error_body "Failed to fetch user data")]
     end.
Proof.
  intros r. subst r.
  unfold get_user_data, try_catch, mbind, M_bind, db_execute, execute, stored_rows.
  destruct (db w) as [c|]; [|split; [done | by read_trace]].
  cbn [env emit set_trace files clock].
  destruct (exec_fault (env w) SelectAllByCreatedDesc) as [e|];
    [split; [done | by read_trace]|].
  destruct (files w !! path_of_url (client_url c)) as [[|[tbl|]]|];
    cbn [default from_option id run_stmt];
    try (split; [done | by read_trace]).
  split; [done|].
  exists (merge_sort created_desc (tbl_rows tbl)).
  split; [by read_trace|].
  split; [apply StronglySorted_merge_sort; apply _ | apply merge_sort_Permutation].
Qed.

(** Reading a key of [req.body] depends on the body only through its
    being [undefined]/[null] or not. *)
Lemma prop_value_is_None (o : jsval) (key key' : string) :
  prop_value o key = None -> prop_value o key' = None.
Proof. by destruct o. Qed.

(** [execute] hands back a promise, logs its statement and leaves the
    module-level [db] alone. *)
Lemma execute_returns (c : client) (s : stmt) (w : world) :
  (exists p, (execute c s w).1 = Normal p)
  /\ trace (execute c s w).2 = trace w ++ [EExecute s]
  /\ db (execute c s w).2 = db w.
Proof.
  unfold execute. cbn [env emit set_trace files clock].
  repeat case_match; cbn; eauto.
Qed.

(** An insert with an argument SQLite cannot bind to a NOT NULL column is
    rejected by the storage. *)
Lemma execute_insert_rejected (c : client) (w : world)
    (budget city investmentType targetAudience : jsval) :
  storable budget && storable city && storable investmentType
    && storable targetAudience = false ->
  exists e, (execute c (InsertUserData [budget; city; investmentType; targetAudience]) w).1
            = Normal (Rejected e).
Proof.
  intros Hs. unfold execute. cbn [env emit set_trace files clock].
  destruct (exec_fault _ _); [eauto|].
  destruct (default _ _) as [|[tbl|]]; cbn [run_stmt]; [eauto| |eauto].
  rewrite Hs. eauto.
Qed.

(** C9. POST /api/user-data validates nothing. It always completes with
    exactly one answer, a 200 with the inserted row or the generic 500, so
    never a 4xx. When [req.body] can be read, the first statement handed
    to the storage is the insert with the four fields exactly as they are
    in the body ([undefined] when missing); a field that is missing, [null]
    or of a type the storage cannot bind makes the storage reject the
    insert, which the caller sees as the generic 500. When [req.body]
    cannot be read ([undefined] or [null]) or there is no client, nothing
    reaches the storage and the answer is the generic 500. *)
Theorem C9_post_user_data_validates_nothing (req : request) (w : world) :
  let r := post_user_data req w in
  let generic := [(500, error_body "Failed to save user data")] in
  r.1 = Normal tt
  /\ ((exists row, responses (since w r.2) = [(200, PRow row)])
      \/ responses (since w r.2) = generic)
  /\ match prop_value (req_body req) "budget", prop_value (req_body req) "city",
           prop_value (req_body req) "investmentType",
           prop_value (req_body req) "targetAudience" with
     | Some budget, Some city, Some investmentType, Some targetAudience =>
         match db w with
         | Some _ =>
             head (statements (since w r.2))
             = Some (InsertUserData [budget; city; investmentType; targetAudience])
             /\ if storable budget && storable city && storable investmentType
                   && storable targetAudience
                then True
                else responses (since w r.2) = generic
         | None => statements (since w r.2) = [] /\ responses (since w r.2) = generic
         end
     | _, _, _, _ => statements (since w r.2) = [] /\ responses (since w r.2) = generic
     end.
Proof.
  intros r generic. subst r generic.
  unfold post_user_data, try_catch, mbind, M_bind, destructured.
  destruct (prop_value (req_body req) "budget") as [budget|] eqn:Hb.
  2: { split; [done|]. split; [right|split]; by read_trace. }
  destruct (prop_value (req_body req) "city") as [city|] eqn:Hc.
  2: { by rewrite (prop_value_is_None _ _ "budget" Hc) in Hb. }
  destruct (prop_value (req_body req) "investmentType") as [investmentType|] eqn:Hi.
  2: { by rewrite (prop_value_is_None _ _ "budget" Hi) in Hb. }
  destruct (prop_value (req_body req) "targetAudience") as [targetAudience|] eqn:Ht.
  2: { by rewrite (prop_value_is_None _ _ "budget" Ht) in Hb. }
  unfold mret, M_ret, db_execute.
  destruct (db w) as [c|] eqn:Hdb.
  2: { split; [done|]. split; [right|split]; by read_trace. }
  pose proof (execute_returns c
    (InsertUserData [budget; city; investmentType; targetAudience]) w)
    as ([p Hp] & Htr & Hdb').
  pose proof (execute_insert_rejected c w budget city investmentType targetAudience)
    as Hrej.
  destruct (execute c (InsertUserData [budget; city; investmentType; targetAudience]) w)
    as [cp w1].
  cbn [fst snd] in Hp, Htr, Hdb', Hrej. subst cp.
  destruct p as [result|e]; cbn [await mret M_ret throw].
  - rewrite Hdb', Hdb.
    pose proof (execute_returns c (SelectById [rs_lastInsertRowid result]) w1)
      as ([p2 Hp2] & Htr2 & _).
    destruct (execute c (SelectById [rs_lastInsertRowid result]) w1) as [cp2 w2].
    cbn [fst snd] in Hp2, Htr2. subst cp2. rewrite Htr in Htr2.
    destruct p2 as [insertedData|e]; cbn [await mret M_ret throw].
    + split; [done|]. split; [left; eexists; by read_trace_from Htr2|].
      split; [by read_trace_from Htr2|].
      destruct (storable budget && _ && _ && _); [done|].
      destruct Hrej as [e He]; [done|]. discriminate He.
    + split; [done|]. split; [right; by read_trace_from Htr2|].
      split; [by read_trace_from Htr2|].
      destruct (storable budget && _ && _ && _); [done|].
      by read_trace_from Htr2.
  - split; [done|]. split; [right; by read_trace_from Htr|].
    split; [by read_trace_from Htr|].
    destruct (storable budget && _ && _ && _); [done|].
    by read_trace_from Htr.
Qed.

(** * Further properties of the script *)

(** ** Store check and initialisation, continued (lines 13-71) *)

(** The check never fails by itself (it returns normally whatever
    happens), and it deletes the store file in exactly one situation: the
    file exists, [createClient] refuses it, and the deletion itself works.
    In every other situation (no file at all; a file the client opens,
    whatever becomes of the probe; a deletion that fails) the files are as
    they were, and without a file the whole world is. *)
Theorem check_deletes_only_a_store_that_does_not_open (w : world) :
  let w' := (checkAndInitializeDatabase w).2 in
  (checkAndInitializeDatabase w).1 = Normal tt
  /\ match files w !! DB_PATH with
  | Some img =>
      match open_fault (env w) (Some img), unlink_fault (env w) with
      | Some _, None =>
          files w' = delete DB_PATH (files w) /\ unlinks (since w w') = [DB_PATH]
      | _, _ => files w' = files w /\ unlinks (since w w') = []
      end
  | None => w' = w
  end.
Proof.
  intros w'. subst w'. split; [apply checkAndInitializeDatabase_returns|].
  unfold checkAndInitializeDatabase, try_catch, mbind, M_bind, fs_existsSync, createClient.
  rewrite store_path.
  destruct (files w !! DB_PATH) as [img|] eqn:Hf.
  2: { rewrite bool_decide_eq_false_2 by (by intros [? ?]). by destruct w. }
  rewrite bool_decide_eq_true_2 by eauto. cbv beta iota. rewrite Hf.
  destruct (open_fault (env w) (Some img)) as [e|].
  - unfold console_log, fs_unlinkSync. cbn [env emit set_trace files].
    rewrite Hf. destruct (unlink_fault (env w)) as [e'|].
    + split; [done | by read_trace].
    + split; [done | by read_trace].
  - unfold execute. cbn [env emit set_trace files client_url].
    rewrite store_path, Hf.
    destruct (exec_fault (env w) Select1);
      [|destruct img as [|[tbl|]]]; cbn; (split; [done | by read_trace]).
Qed.

(** A store file that can be neither opened nor deleted ends start-up:
    the failed deletion is only logged by the check, and the second
    [createClient] of [initializeDatabase] then meets the same file. *)
Theorem store_neither_opened_nor_deleted_is_fatal
    (w : world) (img : db_image) (e e' : js_error) :
  files w !! DB_PATH = Some img ->
  open_fault (env w) (Some img) = Some e ->
  unlink_fault (env w) = Some e' ->
  let r := initializeDatabase w in
  r.1 = Exit 1
  /\ files r.2 = files w
  /\ since w r.2 = [ELog "Database corrupted, recreating...";
                    EError "Error checking database:" e';
                    EError "Error initializing database:" e;
                    EExit 1].
Proof.
  intros Hf Ho Hu r. subst r.
  unfold initializeDatabase, checkAndInitializeDatabase, try_catch, mbind, M_bind,
    fs_existsSync, createClient.
  rewrite store_path, Hf, bool_decide_eq_true_2 by eauto.
  cbv beta iota. rewrite Hf, Ho.
  unfold console_log, fs_unlinkSync. cbn [env emit set_trace files].
  rewrite Hu. cbn [console_error env emit set_trace files fst snd].
  rewrite Hf, Ho. cbn. split; [done|]. split; [done | by read_trace].
Qed.

(** Garbage in the store file, a client that checks it, and a file system
    that refuses the deletion. *)
Lemma store_neither_opened_nor_deleted_is_fatal_witness :
  let w := boot locked_garbage {[ DB_PATH := Garbage ]} in
  (initializeDatabase w).1 = Exit 1
  /\ files (initializeDatabase w).2 = files w
  /\ error_lines (since w (initializeDatabase w).2)
     = ["Error checking database:"; "Error initializing database:"].
Proof.
  cbn zeta.
  assert (files (boot locked_garbage {[ DB_PATH := Garbage ]}) !! DB_PATH = Some Garbage)
    as Hf by (vm_compute; reflexivity).
  destruct (store_neither_opened_nor_deleted_is_fatal
              (boot locked_garbage {[ DB_PATH := Garbage ]}) Garbage _ _
              Hf eq_refl eq_refl) as (H1 & H2 & H3).
  split; [exact H1|]. split; [exact H2|]. rewrite H3. reflexivity.
Defined.

(** The check on a store that is absent or that the client opens: it
    returns, and at most the probe was sent. *)
Lemma check_on_store_that_opens (w : world) :
  open_fault (env w) (files w !! DB_PATH) = None ->
  checkAndInitializeDatabase w = (Normal tt, w)
  \/ exists u, checkAndInitializeDatabase w
               = (Normal tt, set_unhandled u (emit (EExecute Select1) w)).
Proof.
  intros Ho.
  unfold checkAndInitializeDatabase, try_catch, mbind, M_bind, fs_existsSync, createClient.
  rewrite store_path.
  destruct (files w !! DB_PATH) as [img|] eqn:Hf.
  2: { rewrite bool_decide_eq_false_2 by (by intros [? ?]). by left. }
  rewrite bool_decide_eq_true_2 by eauto. cbv beta iota. rewrite Hf, Ho.
  right. unfold execute. cbn [env emit set_trace files client_url].
  rewrite store_path, Hf.
  destruct (exec_fault (env w) Select1) as [e|].
  - exists (unhandled w ++ [e]). reflexivity.
  - destruct img as [|[tbl|]]; cbn.
    + eexists. reflexivity.
    + exists (unhandled w). by destruct w.
    + exists (unhandled w). by destruct w.
Qed.

(** Creating the table on a store that opens. *)
Lemma create_table_run (w : world) :
  files w !! DB_PATH <> Some Garbage ->
  open_fault (env w) (files w !! DB_PATH) = None ->
  exec_fault (env w) CreateUserData = None ->
  (db ← createClient ("file:" +:+ DB_PATH);
   created ← execute db CreateUserData;
   await created;;
   console_log "Database initialized successfully";;
   mret db) w
  = (Normal store_client,
     emit (ELog "Database initialized successfully")
       (match files w !! DB_PATH with
        | Some (Database (Some tbl)) => emit (EExecute CreateUserData) w
        | _ => set_files
                 (<[DB_PATH := Database (Some {| tbl_rows := []; tbl_seq := 0 |})]>
                    (files w))
                 (emit (EExecute CreateUserData) w)
        end)).
Proof.
  intros Hg Ho Hx.
  unfold mbind, M_bind, createClient. rewrite store_path, Ho.
  unfold execute. cbn [env emit set_trace files client_url].
  rewrite store_path, Hx.
  destruct (files w !! DB_PATH) as [[|[tbl|]]|]; [done| | |]; reflexivity.
Qed.

(** Initialisation on a store that opens, as one run. *)
Lemma initializeDatabase_run (w : world) :
  files w !! DB_PATH <> Some Garbage ->
  open_fault (env w) (files w !! DB_PATH) = None ->
  exec_fault (env w) CreateUserData = None ->
  exists w1,
    (w1 = w \/ exists u, w1 = set_unhandled u (emit (EExecute Select1) w))
    /\ initializeDatabase w
       = (Normal store_client,
          emit (ELog "Database initialized successfully")
            (match files w !! DB_PATH with
             | Some (Database (Some tbl)) => emit (EExecute CreateUserData) w1
             | _ => set_files
                      (<[DB_PATH := Database (Some {| tbl_rows := []; tbl_seq := 0 |})]>
                         (files w))
                      (emit (EExecute CreateUserData) w1)
             end)).
Proof.
  intros Hg Ho Hx.
  unfold initializeDatabase, try_catch.
  change (checkAndInitializeDatabase;;
          db ← createClient ("file:" +:+ DB_PATH);
          created ← execute db CreateUserData;
          await created;;
          console_log "Database initialized successfully";;
          mret db)
    with (mbind (M := M)
            (fun _ : unit =>
               db ← createClient ("file:" +:+ DB_PATH);
               created ← execute db CreateUserData;
               await created;;
               console_log "Database initialized successfully";;
               mret db)
            checkAndInitializeDatabase).
  unfold mbind at 1, M_bind at 1.
  destruct (check_on_store_that_opens w Ho) as [->|[u ->]].
  - exists w. split; [by left|]. by rewrite (create_table_run w Hg Ho Hx).
  - exists (set_unhandled u (emit (EExecute Select1) w)). split; [right; by exists u|].
    by rewrite (create_table_run (set_unhandled u (emit (EExecute Select1) w)) Hg Ho Hx).
Qed.

(** When the store opens and the table statement does not fail,
    initialisation returns the client and never loses a record: an
    existing table keeps the store exactly as it was (also when the probe
    of the check is rejected), and only a missing file or a missing table
    gives a new, empty table. *)
Theorem initializeDatabase_keeps_existing_records (w : world) :
  files w !! DB_PATH <> Some Garbage ->
  open_fault (env w) (files w !! DB_PATH) = None ->
  exec_fault (env w) CreateUserData = None ->
  let r := initializeDatabase w in
  r.1 = Normal store_client
  /\ unlinks (since w r.2) = []
  /\ match files w !! DB_PATH with
     | Some (Database (Some tbl)) => files r.2 = files w
     | _ => files r.2
            = <[DB_PATH := Database (Some {| tbl_rows := []; tbl_seq := 0 |})]> (files w)
     end.
Proof.
  intros Hg Ho Hx r. subst r.
  destruct (initializeDatabase_run w Hg Ho Hx) as (w1 & Hw1 & ->).
  cbn [fst snd]. split; [done|].
  destruct Hw1 as [->|[u ->]];
    destruct (files w !! DB_PATH) as [[|[tbl|]]|]; try done;
    (split; [by read_trace | done]).
Qed.

(** A restart on a store that holds a row. *)
Lemma initializeDatabase_keeps_existing_records_witness :
  let w := boot calm {[ DB_PATH := Database (Some sample_table) ]} in
  (initializeDatabase w).1 = Normal store_client
  /\ unlinks (since w (initializeDatabase w).2) = []
  /\ files (initializeDatabase w).2 = files w.
Proof.
  cbn zeta.
  assert (files (boot calm {[ DB_PATH := Database (Some sample_table) ]}) !! DB_PATH
          = Some (Database (Some sample_table))) as Hf by (vm_compute; reflexivity).
  pose proof (initializeDatabase_keeps_existing_records
                (boot calm {[ DB_PATH := Database (Some sample_table) ]})) as H.
  cbn zeta in H. rewrite Hf in H. apply H; [discriminate | reflexivity | reflexivity].
Defined.

(** ** Start-up as a whole (lines 126-227) *)

Lemma binds_app (l k : list effect) : binds (l ++ k) = binds l ++ binds k.
Proof. apply omap_app. Qed.

(** Closes a goal "the trace grew by something without bind effects". *)
Ltac grown :=
  first [ by exists []; rewrite app_nil_r
        | eexists; split; [cbn; rewrite <- ?app_assoc; cbn; reflexivity | reflexivity] ].

(** Initialisation returns the client or ends the process with status 1;
    it touches neither the server nor the routes nor [db], and binds
    nothing. *)
Lemma initializeDatabase_frame (w : world) :
  let r := initializeDatabase w in
  (r.1 = Normal store_client \/ r.1 = Exit 1)
  /\ env r.2 = env w /\ db r.2 = db w /\ server r.2 = server w
  /\ routes r.2 = routes w
  /\ exists new, trace r.2 = trace w ++ new /\ binds new = [].
Proof.
  intros r. subst r.
  unfold initializeDatabase, checkAndInitializeDatabase, try_catch, mbind, M_bind,
    fs_existsSync, createClient, execute, unawaited, await, console_log, console_error,
    fs_unlinkSync, process_exit, mret, M_ret, throw.
  repeat (case_match; simplify_eq/=);
    (split; [eauto|]; split; [done|]; split; [done|]; split; [done|]; split; [done|]; grown).
Qed.

(** Port resolution and listening completes normally with a fresh
    listening server in [server], or throws (a bad port) or ends the
    process with status 1 (the real bind failed) and leaves [server] alone;
    its bind activity has one of the four shapes. *)
Lemma resolve_and_listen_frame (w : world) :
  let r := resolve_and_listen w in
  env r.2 = env w /\ db r.2 = db w /\ routes r.2 = routes w
  /\ ((r.1 = Normal tt
       /\ exists t, server r.2 = Some {| srv_target := t; srv_listening := true;
                                         srv_connections := 0%nat; srv_on_close := [] |})
      \/ ((r.1 = Exit 1 \/ exists e, r.1 = Throw e) /\ server r.2 = server w))
  /\ exists new, trace r.2 = trace w ++ new /\ bind_shape (binds new).
Proof.
  intros r. subst r.
  unfold resolve_and_listen, mbind, M_bind, process_env_PORT_or, isPortInUse,
    console_log, app_listen, assign_server.
  repeat (case_match; simplify_eq/=);
    (split; [done|]; split; [done|]; split; [done|]; split; [by eauto 6|]);
    first [ exists []; split; [by rewrite app_nil_r | by left]
          | eexists; split; [cbn; rewrite <- ?app_assoc; cbn; reflexivity|];
            cbn; right; eexists; eauto 6 ].
Qed.

(** [startServer], by completion of its two phases. *)
Lemma startServer_run (w : world) :
  startServer w =
    match initializeDatabase w with
    | (Normal client, w1) =>
        match resolve_and_listen
                (set_routes (((routes w1 ++ [("POST", "/api/user-data", SaveUserData)])
                              ++ [("GET", "/api/user-data", GetUserData)])
                             ++ [("POST", "/api/proxy/ai", ProxyAI)])
                   (set_db (Some client) w1)) with
        | (Throw e, w3) =>
            (Exit 1, emit (EExit 1) (emit (EError "Failed to start server:" e) w3))
        | r => r
        end
    | (Throw e, w1) =>
        (Exit 1, emit (EExit 1) (emit (EError "Failed to start server:" e) w1))
    | (Exit code, w1) => (Exit code, w1)
    | (Pending, w1) => (Pending, w1)
    end.
Proof.
  unfold startServer, try_catch, mbind, M_bind, assign_db, app_route.
  destruct (initializeDatabase w) as [[client|e|code|] w1]; [|reflexivity..].
  cbn [set_db set_routes routes].
  by destruct (resolve_and_listen _) as [[[]|e|code|] w3].
Qed.


(** The bind activity of a whole start-up has one of the four shapes: at
    most one test bind and at most one real listen, the listen never
    without the test before it, and a test listener that did bind is closed
    before the real listen on its target. No second fallback step, no scan
    of a range. *)
Theorem startServer_binds_at_most_once (w : world) :
  bind_shape (binds (since w (startServer w).2)).
Proof.
  rewrite startServer_run.
  destruct (initializeDatabase_frame w) as (Hc & _ & _ & _ & _ & new1 & Ht1 & Hb1).
  destruct (initializeDatabase w) as [c w1]. cbn [fst snd] in Hc, Ht1.
  destruct Hc as [->| ->].
  2: { cbn [snd]. rewrite (since_app _ _ _ Ht1), Hb1. by left. }
  match goal with |- context [resolve_and_listen ?x] => set (w2 := x) end.
  destruct (resolve_and_listen_frame w2) as (_ & _ & _ & _ & new2 & Ht2 & Hb2).
  assert (trace w2 = trace w ++ new1) as Hw2 by exact Ht1.
  rewrite Hw2, <- app_assoc in Ht2.
  destruct (resolve_and_listen w2) as [[[]|e|code|] w3]; cbn [fst snd] in Ht2 |- *.
  - rewrite (since_app _ _ _ Ht2), binds_app, Hb1. exact Hb2.
  - erewrite since_app; [|cbn; rewrite Ht2, <- !app_assoc; reflexivity].
    rewrite !binds_app, Hb1. cbn. by rewrite app_nil_r.
  - rewrite (since_app _ _ _ Ht2), binds_app, Hb1. exact Hb2.
  - rewrite (since_app _ _ _ Ht2), binds_app, Hb1. exact Hb2.
Qed.

(** A [PORT] that [listen] refuses (out of range, say) ends start-up with
    status 1 before anything is bound, test listener included. *)
Theorem bad_PORT_is_fatal_before_any_bind (w : world) (e : js_error) :
  listen_target_of (js_or (env_value (env_PORT (env w))) (VNum 3000)) = inl e ->
  (startServer w).1 = Exit 1 /\ binds (since w (startServer w).2) = [].
Proof.
  intros Hbad. rewrite startServer_run.
  destruct (initializeDatabase_frame w) as (Hc & Henv & _ & _ & _ & new1 & Ht1 & Hb1).
  destruct (initializeDatabase w) as [c w1]. cbn [fst snd] in Hc, Henv, Ht1.
  destruct Hc as [->| ->].
  2: { cbn [fst snd]. by rewrite (since_app _ _ _ Ht1). }
  unfold resolve_and_listen, mbind, M_bind, process_env_PORT_or, isPortInUse.
  cbn [env set_routes set_db]. rewrite Henv, Hbad. cbn [fst snd].
  split; [done|].
  erewrite since_app; [|cbn; rewrite Ht1, <- !app_assoc; reflexivity].
  rewrite binds_app, Hb1. reflexivity.
Qed.

(** PORT=70000. *)
Lemma bad_PORT_is_fatal_before_any_bind_witness :
  let w := boot (with_PORT "70000") ∅ in
  (startServer w).1 = Exit 1 /\ binds (since w (startServer w).2) = [].
Proof.
  exact (bad_PORT_is_fatal_before_any_bind (boot (with_PORT "70000") ∅)
           ERR_SOCKET_BAD_PORT eq_refl).
Defined.

(** No partial service: when the initialisation of the database ends the
    process, nothing was bound or tested, no route was registered and [db]
    was never assigned. *)
Theorem failed_initialisation_binds_nothing (w : world) :
  (initializeDatabase w).1 = Exit 1 ->
  let r := startServer w in
  r.1 = Exit 1
  /\ binds (since w r.2) = []
  /\ routes r.2 = routes w /\ db r.2 = db w /\ server r.2 = server w.
Proof.
  intros Hexit r. subst r. rewrite startServer_run.
  destruct (initializeDatabase_frame w) as (_ & _ & Hd & Hs & Hr & new & Ht & Hb).
  destruct (initializeDatabase w) as [c w1]. cbn [fst snd] in Hexit, Hd, Hs, Hr, Ht.
  subst c. cbn [fst snd]. by rewrite (since_app _ _ _ Ht).
Qed.

(** The store file holds garbage that only the first statement detects. *)
Lemma failed_initialisation_binds_nothing_witness :
  let w := boot calm {[ DB_PATH := Garbage ]} in
  (startServer w).1 = Exit 1
  /\ binds (since w (startServer w).2) = []
  /\ routes (startServer w).2 = routes w /\ db (startServer w).2 = db w
  /\ server (startServer w).2 = server w.
Proof.
  cbn zeta.
  apply (failed_initialisation_binds_nothing (boot calm {[ DB_PATH := Garbage ]})).
  vm_compute. reflexivity.
Defined.

(** Start-up completes or ends the process with status 1. *)
Lemma startServer_returns_or_exits_1 (w : world) :
  (startServer w).1 = Normal tt \/ (startServer w).1 = Exit 1.
Proof.
  rewrite startServer_run.
  destruct (initializeDatabase_frame w) as (Hc & _).
  destruct (initializeDatabase w) as [c w1]. cbn [fst snd] in Hc.
  destruct Hc as [->| ->]; [|by right].
  match goal with |- context [resolve_and_listen ?x] => set (w2 := x) end.
  destruct (resolve_and_listen_frame w2) as (_ & _ & _ & Hres & _).
  destruct (resolve_and_listen w2) as [c3 w3]. cbn [fst snd] in Hres.
  destruct Hres as [[-> _]|[[->|[e ->]] _]]; cbn [fst]; auto.
Qed.

(** Start-up adds to the rejections nobody handled what the check added,
    and nothing else. *)
Lemma startServer_unhandled (w : world) :
  unhandled (startServer w).2 = unhandled (checkAndInitializeDatabase w).2.
Proof.
  pose proof (checkAndInitializeDatabase_returns w) as Hc.
  unfold startServer, initializeDatabase, try_catch, mbind, M_bind.
  destruct (checkAndInitializeDatabase w) as [c w1]. cbn [fst snd] in Hc |- *. subst c.
  unfold createClient, execute, await, console_log, console_error, process_exit,
    assign_db, app_route, resolve_and_listen, process_env_PORT_or, isPortInUse,
    app_listen, assign_server, mret, M_ret, throw, mbind, M_bind.
  repeat (case_match; simplify_eq/=); reflexivity.
Qed.

(** The probe of the check has no observer. When its promise is rejected,
    the rejection does not reach the [catch] that would delete the store:
    nothing is deleted, start-up goes on as if the probe had succeeded, and
    the process ends with status 1 all the same: by a failure of start-up
    or else, start-up having gone through, by the runtime at the end of the
    first turn. When the probe is not rejected (and no rejection was
    pending), the runtime has nothing to say and the script as a whole is
    [startServer]. *)
Theorem rejected_probe_ends_the_process (w : world) (img : db_image) :
  unhandled w = [] ->
  files w !! DB_PATH = Some img ->
  open_fault (env w) (Some img) = None ->
  match exec_fault (env w) Select1 with
  | Some e =>
      files (checkAndInitializeDatabase w).2 = files w
      /\ unlinks (since w (checkAndInitializeDatabase w).2) = []
      /\ (main w).1 = Exit 1
      /\ ((startServer w).1 = Normal tt ->
          (main w).2 = emit (EExit 1) (emit (EUncaught e) (startServer w).2))
  | None => main w = startServer w
  end.
Proof.
  intros Hu Hf Ho.
  pose proof (startServer_unhandled w) as Hun.
  pose proof (check_on_store_that_exists_and_opens w img Hf Ho) as Hcheck.
  rewrite Hcheck in Hun |- *. cbn [snd] in Hun.
  pose proof (startServer_returns_or_exits_1 w) as Hs.
  unfold main, mbind, M_bind, end_of_turn.
  destruct (startServer w) as [c w'] eqn:Hstart. cbn [fst snd] in Hs, Hun |- *.
  destruct (exec_fault (env w) Select1) as [e|] eqn:Hx.
  - cbn [unhandled set_unhandled] in Hun. rewrite Hu in Hun. cbn [app] in Hun.
    split; [done|]. split; [by read_trace|].
    destruct Hs as [->| ->]; [|done]. rewrite Hun. done.
  - cbn [unhandled emit set_trace] in Hun. rewrite Hu in Hun.
    destruct Hs as [->| ->]; [|done]. by rewrite Hun.
Qed.

(** A sound store, free ports, and a probe that is rejected: start-up goes
    through, the server listens on 3000, and the process is ended at the
    end of the turn. *)
Lemma rejected_probe_ends_the_process_witness :
  let w := boot probe_rejected {[ DB_PATH := Database (Some sample_table) ]} in
  (startServer w).1 = Normal tt
  /\ listens (since w (startServer w).2) = [TcpPort 3000]
  /\ files (checkAndInitializeDatabase w).2 = files w
  /\ (main w).1 = Exit 1.
Proof.
  cbn zeta.
  assert (files (boot probe_rejected {[ DB_PATH := Database (Some sample_table) ]})
            !! DB_PATH = Some (Database (Some sample_table))) as Hf
    by (vm_compute; reflexivity).
  pose proof (rejected_probe_ends_the_process
                (boot probe_rejected {[ DB_PATH := Database (Some sample_table) ]})
                (Database (Some sample_table)) eq_refl Hf eq_refl) as H.
  cbn [exec_fault env boot probe_rejected] in H. destruct H as (H1 & _ & H2 & _).
  split; [vm_compute; reflexivity|]. split; [vm_compute; reflexivity|].
  split; [exact H1 | exact H2].
Defined.

(** Port 3000 is occupied and [PORT] is not set. *)
Lemma default_port_fallback_witness :
  let w := boot (test_bind_fails None 3000 EADDRINUSE) ∅ in
  listens (since w (resolve_and_listen w).2) = [TcpPort 3001].
Proof.
  cbn zeta.
  apply (default_port_fallback (boot (test_bind_fails None 3000 EADDRINUSE) ∅) EADDRINUSE);
    reflexivity.
Defined.

(** ** The bounded outbound call, continued (lines 108-123) *)

Lemma wf_other_call_pending (e : environment) : wf (other_call_pending e).
Proof.
  split.
  - repeat constructor; cbn; lia.
  - intros c Hc. cbn in Hc. set_solver.
Qed.

(** The delay of a timer is always within 1..2^31-1 ms, and it is the one
    asked for when that is within these bounds. *)
Lemma timer_delay_bounds (after : Z) :
  1 <= timer_delay after <= TIMEOUT_MAX
  /\ (1 <= after <= TIMEOUT_MAX -> timer_delay after = after).
Proof.
  unfold timer_delay.
  destruct (Z.leb_spec 1 after), (Z.leb_spec after TIMEOUT_MAX);
    cbn [andb]; unfold TIMEOUT_MAX in *; lia.
Qed.

(** The call is bounded, whatever [timeout] it is given: its deadline is
    the delay its timer is armed with, which is [timeout] (10000 when
    omitted) only if that is within 1..2^31-1 ms and 1 ms otherwise, and
    the call settles no later than that. When the upstream has not settled
    before the deadline (or never does), the call ends exactly at the
    deadline with the AbortError and its signal is aborted, so the request
    is cancelled and not just ignored; when the upstream settles in time,
    the signal is not aborted. *)
Theorem fetchWithTimeout_settles_by_the_deadline (url : string) (options : fetch_options)
    (timeout : option Z) (w : world) :
  wf w ->
  let r := fetchWithTimeout url options timeout w in
  let late := r.1 = Throw AbortError /\ fresh w ∈ aborted r.2
              /\ clock r.2 = clock w + deadline_of timeout in
  1 <= deadline_of timeout <= TIMEOUT_MAX
  /\ clock w <= clock r.2 <= clock w + deadline_of timeout
  /\ match upstream (env w) (call_request url options) with
     | Responds latency _ | Fails latency _ =>
         if latency <? deadline_of timeout then fresh w ∉ aborted r.2 else late
     | Hangs => late
     end.
Proof.
  intros Hwf r late. subst r late.
  pose proof (proj1 (timer_delay_bounds (default 10000 timeout))) as HT.
  fold (deadline_of timeout) in HT. split; [exact HT|].
  rewrite (fetchWithTimeout_run url options timeout w Hwf).
  pose proof (fun time => proj2 (proj2 (proj2 (proj2
                (settled_world url options timeout w Hwf time))))) as Hab.
  cbn zeta in Hab.
  assert (forall time, clock (call_settled url options timeout w time)
                       = Z.max (clock w) time) as Hclock by reflexivity.
  destruct (upstream (env w) (call_request url options)) as [latency r|latency e|];
    try destruct (Z.ltb_spec latency (deadline_of timeout));
    cbn [fst snd]; rewrite Hclock, ?Hab; (split; [lia|]); try lia;
    (split; [done|]; split; lia).
Qed.

(** A timeout of 2^31 ms is beyond what a timer takes: the timer is armed
    with 1 ms, and the call is aborted after 1 ms although the upstream
    would have answered after 100 ms. *)
Lemma fetchWithTimeout_settles_by_the_deadline_witness :
  let w := boot calm ∅ in
  let r := fetchWithTimeout AI_URL (ai_options VNull) (Some 2147483648) w in
  wf w
  /\ deadline_of (Some 2147483648) = 1
  /\ upstream (env w) (ai_request VNull)
     = Responds 100 {| resp_status := 200; resp_body := BodyJson VNull |}
  /\ r.1 = Throw AbortError /\ fresh w ∈ aborted r.2 /\ clock r.2 = clock w + 1.
Proof.
  cbn zeta. split; [apply wf_boot|]. split; [reflexivity|]. split; [reflexivity|].
  exact (proj2 (proj2 (fetchWithTimeout_settles_by_the_deadline
                         AI_URL (ai_options VNull) (Some 2147483648)
                         (boot calm ∅) (wf_boot _ _)))).
Defined.

(** Before the deadline (the delay the timer is armed with, which is 1 ms
    for a [timeout] outside 1..2^31-1) the call is transparent: exactly one
    request goes out, with the method, headers and body of [options]; a
    response that arrives in time is returned as it is, and a failure that
    occurs in time is rethrown as the same error. *)
Theorem fetchWithTimeout_is_transparent_before_the_deadline
    (url : string) (options : fetch_options) (timeout : option Z) (w : world) :
  wf w ->
  let r := fetchWithTimeout url options timeout w in
  fetches (since w r.2) = [call_request url options]
  /\ match upstream (env w) (call_request url options) with
     | Responds latency response =>
         latency < deadline_of timeout -> r.1 = Normal response
     | Fails latency e =>
         latency < deadline_of timeout -> r.1 = Throw e
     | Hangs => True
     end.
Proof.
  intros Hwf r. subst r.
  rewrite (fetchWithTimeout_run url options timeout w Hwf).
  pose proof (fun time => proj1 (settled_world url options timeout w Hwf time)) as Htr.
  cbn zeta in Htr.
  destruct (upstream (env w) (call_request url options)) as [latency r|latency e|];
    try destruct (Z.ltb_spec latency (deadline_of timeout));
    cbn [fst snd]; rewrite (since_app _ _ _ (Htr _)); (split; [done|]);
    try done; intros; lia.
Qed.

(** The upstream answers after 100 ms. *)
Lemma fetchWithTimeout_is_transparent_before_the_deadline_witness :
  let w := boot calm ∅ in
  let r := fetchWithTimeout AI_URL (ai_options VNull) (Some 30000) w in
  fetches (since w r.2) = [ai_request VNull]
  /\ r.1 = Normal {| resp_status := 200; resp_body := BodyJson VNull |}.
Proof.
  cbn zeta.
  destruct (fetchWithTimeout_is_transparent_before_the_deadline
              AI_URL (ai_options VNull) (Some 30000) (boot calm ∅) (wf_boot _ _))
    as [Hsent Hres].
  split; [exact Hsent|]. apply Hres. vm_compute. reflexivity.
Defined.

(** A call leaves the other calls alone. It leaves no timer behind: every
    timer armed after it was armed before it. It clears no timer but its
    own: a timer that is due after the deadline of the call is still
    armed. And it aborts no signal but its own: another signal is aborted
    afterwards only if it was before, or if its own timer came due while
    the call was waiting. *)
Theorem fetchWithTimeout_spares_other_calls (url : string) (options : fetch_options)
    (timeout : option Z) (w : world) :
  wf w ->
  let r := fetchWithTimeout url options timeout w in
  (forall x, x ∈ timers r.2 -> x ∈ timers w)
  /\ (forall x, x ∈ timers w -> clock w + deadline_of timeout < timer_due x ->
                x ∈ timers r.2)
  /\ (forall c, c <> fresh w -> c ∈ aborted r.2 ->
                c ∈ aborted w
                \/ exists x, x ∈ timers w /\ timer_aborts x = c
                             /\ timer_due x <= clock r.2).
Proof.
  intros Hwf r. subst r.
  assert (exists time res,
            fetchWithTimeout url options timeout w
            = (res, call_settled url options timeout w time)
            /\ time <= clock w + deadline_of timeout) as (time & res & -> & Htime).
  { rewrite (fetchWithTimeout_run url options timeout w Hwf).
    destruct (upstream (env w) (call_request url options)) as [latency r|latency e|];
      try destruct (Z.ltb_spec latency (deadline_of timeout));
      eexists _, _; (split; [reflexivity|lia]). }
  destruct Hwf as [Hts _]. rewrite Forall_forall in Hts.
  cbn [snd]. split; [|split].
  - intros x Hx. cbn in Hx.
    apply list_elem_of_filter in Hx as [Hid Hx].
    apply list_elem_of_filter in Hx as [_ Hx].
    apply elem_of_app in Hx as [Hx|Hx]; [done|].
    apply list_elem_of_singleton in Hx. subst x. by cbn in Hid.
  - intros x Hx Hdue. cbn.
    apply list_elem_of_filter. split; [apply Hts in Hx; lia|].
    apply list_elem_of_filter. split; [lia|].
    apply elem_of_app. by left.
  - intros c Hc Hin. cbn in Hin.
    apply elem_of_union in Hin as [Hin|Hin]; [by left|].
    apply elem_of_list_to_set, list_elem_of_fmap in Hin as (x & -> & Hx).
    apply list_elem_of_filter in Hx as [Hdue Hx].
    apply elem_of_app in Hx as [Hx|Hx].
    + right. exists x. split; [done|]. split; [done|]. cbn. lia.
    + apply list_elem_of_singleton in Hx. subst x. done.
Qed.

(** Another call's timer, due at 50000 ms, survives a call that times out
    at 30000 ms. *)
Lemma fetchWithTimeout_spares_other_calls_witness :
  let w := other_call_pending (with_upstream Hangs) in
  let r := fetchWithTimeout AI_URL (ai_options VNull) (Some 30000) w in
  {| timer_id := 1%nat; timer_due := 50000; timer_aborts := 0%nat |} ∈ timers r.2.
Proof.
  cbn zeta.
  apply (proj1 (proj2 (fetchWithTimeout_spares_other_calls
                         AI_URL (ai_options VNull) (Some 30000)
                         (other_call_pending (with_upstream Hangs))
                         (wf_other_call_pending _)))).
  - cbn. apply list_elem_of_singleton. reflexivity.
  - vm_compute. reflexivity.
Defined.

(** ** The proxy handler, continued (lines 164-207) *)

(** The proxy handler never throws and never ends the process, and it
    answers exactly once, with one exception: the deadline covers the wait
    for the response only, not the reading of its body. When the upstream
    sends a 2xx response in time and then never finishes the body, the
    handler stays suspended and the caller gets no answer at all. *)
Theorem post_proxy_ai_answers_once_unless_the_body_hangs (req : request) (w : world) :
  wf w ->
  let r := post_proxy_ai req w in
  let stuck :=
    match prop_value (req_body req) "input_value" with
    | Some v =>
        match upstream (env w) (ai_request v) with
        | Responds latency response =>
            (latency <? 30000) && resp_ok response
            && match resp_body response with BodyHangs => true | _ => false end
        | _ => false
        end
    | None => false
    end in
  if stuck then r.1 = Pending /\ responses (since w r.2) = []
  else r.1 = Normal tt /\ length (responses (since w r.2)) = 1%nat.
Proof.
  intros Hwf r stuck. subst r stuck.
  destruct (prop_value (req_body req) "input_value") as [v|] eqn:Hv.
  2: { rewrite (post_proxy_ai_no_body req w Hv). split; [|done].
       unfold post_proxy_ai, try_catch, mbind, M_bind, console_log, get_prop.
       by rewrite Hv. }
  rewrite (post_proxy_ai_run req w v Hv).
  destruct (proxy_call w v Hwf) as [Htrace Hcall].
  rewrite Hcall.
  destruct (upstream (env w) (ai_request v)) as [latency response|latency e|].
  - destruct (latency <? 30000); cbn [andb].
    + destruct (resp_ok response); cbn [andb].
      * destruct (resp_body response) as [data|e|].
        -- split; [done | by read_trace_from Htrace].
        -- destruct (String.eqb (err_name e) "AbortError");
             (split; [done | by read_trace_from Htrace]).
        -- split; [done | by read_trace_from Htrace].
      * split; [done | by read_trace_from Htrace].
    + split; [done | by read_trace_from Htrace].
  - destruct (latency <? 30000);
      try destruct (String.eqb (err_name e) "AbortError");
      (split; [done | by read_trace_from Htrace]).
  - split; [done | by read_trace_from Htrace].
Qed.

(** Headers after 10 ms, status 200, and a body that never ends. *)
Lemma post_proxy_ai_answers_once_unless_the_body_hangs_witness :
  let w := boot (with_upstream
                   (Responds 10 {| resp_status := 200; resp_body := BodyHangs |})) ∅ in
  let req := {| req_headers := []; req_body := VObj {[ "input_value" := VStr "hello" ]} |} in
  (post_proxy_ai req w).1 = Pending /\ responses (since w (post_proxy_ai req w).2) = [].
Proof.
  exact (post_proxy_ai_answers_once_unless_the_body_hangs
           {| req_headers := []; req_body := VObj {[ "input_value" := VStr "hello" ]} |}
           (boot (with_upstream
                    (Responds 10 {| resp_status := 200; resp_body := BodyHangs |})) ∅)
           (wf_boot _ _)).
Defined.

(** ** The storage handlers, continued (lines 131-161) *)

(** In a well-formed table the row just inserted is the only one with its
    id. *)
Lemma filter_new_id (tbl : table) (r : row) :
  table_wf tbl -> row_id r = tbl_seq tbl + 1 ->
  filter (fun x => row_id x = tbl_seq tbl + 1) (tbl_rows tbl ++ [r]) = [r].
Proof.
  intros Hwf Hid. rewrite filter_app.
  assert (filter (fun x => row_id x = tbl_seq tbl + 1) (tbl_rows tbl) = []) as ->.
  { unfold table_wf in Hwf. induction Hwf as [|x xs Hx _ IH]; [done|].
    rewrite filter_cons_False by lia. exact IH. }
  by rewrite filter_cons_True, filter_nil.
Qed.

(** POST /api/user-data with a body the storage can bind, on a store that
    holds the table: the insert goes through; what the caller sees then
    depends on reading the row back. *)
Lemma post_user_data_insertable_run (req : request) (w : world) (c : client) (tbl : table) :
  db w = Some c ->
  files w !! path_of_url (client_url c) = Some (Database (Some tbl)) ->
  insertable (req_body req) = true ->
  exec_fault (env w) (insert_of_body (req_body req)) = None ->
  let now := clock w `div` 1000 in
  let w1 := set_files (<[path_of_url (client_url c)
                         := Database (Some (table_with tbl (req_body req) now))]> (files w))
              (emit (EExecute (insert_of_body (req_body req))) w) in
  let reread := SelectById [VNum (tbl_seq tbl + 1)] in
  post_user_data req w =
    match exec_fault (env w) reread with
    | Some e =>
        (Normal tt,
         emit (ERespond 500 (error_body "Failed to save user data"))
           (emit (EError "Error saving user data:" e) (emit (EExecute reread) w1)))
    | None =>
        (Normal tt,
         emit (ERespond 200
                 (PRow (head (filter (fun x => row_id x = tbl_seq tbl + 1)
                                (tbl_rows (table_with tbl (req_body req) now))))))
           (emit (EExecute reread) w1))
    end.
Proof.
  intros Hdb Hf Hins Hx now w1 reread.
  unfold insertable in Hins. unfold insert_of_body, field in Hx.
  unfold post_user_data, try_catch, mbind, M_bind, destructured.
  destruct (prop_value (req_body req) "budget") as [b|] eqn:Hb; [|done].
  destruct (prop_value (req_body req) "city") as [ci|] eqn:Hc; [|done].
  destruct (prop_value (req_body req) "investmentType") as [it|] eqn:Hi; [|done].
  destruct (prop_value (req_body req) "targetAudience") as [ta|] eqn:Ht; [|done].
  cbn [default from_option id] in Hx.
  unfold mret, M_ret, db_execute. rewrite Hdb.
  unfold execute at 1. cbn [env emit set_trace files clock db].
  rewrite Hx, Hf. cbn [default from_option id run_stmt tbl_seq tbl_rows]. rewrite Hins.
  cbn [await mret M_ret rs_lastInsertRowid db set_files emit set_trace]. rewrite Hdb.
  unfold execute. cbn [env emit set_trace set_files files clock].
  rewrite lookup_insert_eq.
  subst w1 reread now.
  unfold table_with, row_of_body, new_row, insert_of_body, field.
  rewrite Hb, Hc, Hi, Ht. cbn [default from_option id].
  destruct (exec_fault (env w) (SelectById [VNum (tbl_seq tbl + 1)])) as [e|];
    reflexivity.
Qed.

(** POST /api/user-data round trip. With a body whose four fields the
    storage can bind, a store that holds a well-formed table and no
    storage fault, the caller gets a 200 with exactly the row that was
    stored: the next rowid, the time of the insert in seconds, and the four
    fields as their columns hold them; the table holds the old rows
    followed by that row. The fields come back as they were sent when the
    budget is a number and the other three are strings. Otherwise they
    come back converted: a number or boolean sent for a TEXT column as its
    text, a numeric text sent as budget as the number. *)
Theorem post_user_data_returns_the_stored_row
    (req : request) (w : world) (c : client) (tbl : table) :
  db w = Some c ->
  files w !! path_of_url (client_url c) = Some (Database (Some tbl)) ->
  table_wf tbl ->
  insertable (req_body req) = true ->
  exec_fault (env w) (insert_of_body (req_body req)) = None ->
  exec_fault (env w) (SelectById [VNum (tbl_seq tbl + 1)]) = None ->
  let r := post_user_data req w in
  let now := clock w `div` 1000 in
  let stored := row_of_body tbl (req_body req) now in
  r.1 = Normal tt
  /\ responses (since w r.2) = [(200, PRow (Some stored))]
  /\ files r.2 !! path_of_url (client_url c)
     = Some (Database (Some (table_with tbl (req_body req) now)))
  /\ tbl_rows (table_with tbl (req_body req) now) = tbl_rows tbl ++ [stored]
  /\ stored = {| row_id := tbl_seq tbl + 1;
                 row_budget := real_affinity (field (req_body req) "budget");
                 row_city := text_affinity (field (req_body req) "city");
                 row_investment_type :=
                   text_affinity (field (req_body req) "investmentType");
                 row_target_audience :=
                   text_affinity (field (req_body req) "targetAudience");
                 row_created_at := now |}
  /\ (forall (budget : Z) (city investmentType targetAudience : string),
        field (req_body req) "budget" = VNum budget ->
        field (req_body req) "city" = VStr city ->
        field (req_body req) "investmentType" = VStr investmentType ->
        field (req_body req) "targetAudience" = VStr targetAudience ->
        stored = {| row_id := tbl_seq tbl + 1; row_budget := SqlReal budget;
                    row_city := SqlText city;
                    row_investment_type := SqlText investmentType;
                    row_target_audience := SqlText targetAudience;
                    row_created_at := now |}).
Proof.
  intros Hdb Hf Hwf Hins Hx Hy r now stored. subst r now stored.
  rewrite (post_user_data_insertable_run req w c tbl Hdb Hf Hins Hx). cbn zeta.
  rewrite Hy. cbn [fst snd]. split; [done|]. split; [|split; [|split; [|split]]].
  - unfold table_with. cbn [tbl_rows]. rewrite filter_new_id by done.
    by read_trace.
  - cbn [files emit set_trace set_files]. apply lookup_insert_eq.
  - reflexivity.
  - reflexivity.
  - intros budget city investmentType targetAudience Hb Hc Hi Ht.
    unfold row_of_body, new_row. by rewrite Hb, Hc, Hi, Ht.
Qed.

(** A body with the wrong types posted to the started service: the budget
    as the text "12", a number as city, booleans for the other two. The
    caller gets back the number 12 and the texts "5.0", "1.0" and "0.0". *)
Lemma post_user_data_returns_the_stored_row_witness :
  let req := {| req_headers := []; req_body := ill_typed_body |} in
  let w := started calm in
  (post_user_data req w).1 = Normal tt
  /\ responses (since w (post_user_data req w).2)
     = [(200, PRow (Some {| row_id := 2; row_budget := SqlReal 12;
                            row_city := SqlText "5.0";
                            row_investment_type := SqlText "1.0";
                            row_target_audience := SqlText "0.0";
                            row_created_at := 20 |}))].
Proof.
  cbn zeta.
  assert (files (started calm) !! path_of_url (client_url store_client)
          = Some (Database (Some sample_table))) as Hf by (vm_compute; reflexivity).
  assert (table_wf sample_table) as Hwf by (repeat constructor; cbn; lia).
  assert (insertable ill_typed_body = true) as Hins by (vm_compute; reflexivity).
  destruct (post_user_data_returns_the_stored_row
              {| req_headers := []; req_body := ill_typed_body |} (started calm)
              store_client sample_table eq_refl Hf Hwf Hins eq_refl eq_refl)
    as (H1 & H2 & _).
  split; [exact H1|]. rewrite H2. vm_compute. reflexivity.
Defined.

(** A 500 from POST /api/user-data does not mean that nothing was stored.
    The insert and the reading back are two statements: when the insert
    went through and the reading back fails, the caller gets the generic
    500 and the row is in the table all the same. *)
Theorem post_user_data_can_answer_500_after_storing
    (req : request) (w : world) (c : client) (tbl : table) (e : js_error) :
  db w = Some c ->
  files w !! path_of_url (client_url c) = Some (Database (Some tbl)) ->
  insertable (req_body req) = true ->
  exec_fault (env w) (insert_of_body (req_body req)) = None ->
  exec_fault (env w) (SelectById [VNum (tbl_seq tbl + 1)]) = Some e ->
  let r := post_user_data req w in
  responses (since w r.2) = [(500, error_body "Failed to save user data")]
  /\ files r.2 !! path_of_url (client_url c)
     = Some (Database (Some (table_with tbl (req_body req) (clock w `div` 1000)))).
Proof.
  intros Hdb Hf Hins Hx Hy r. subst r.
  rewrite (post_user_data_insertable_run req w c tbl Hdb Hf Hins Hx). cbn zeta.
  rewrite Hy. cbn [fst snd]. split; [by read_trace|].
  cbn [files emit set_trace set_files]. apply lookup_insert_eq.
Qed.

(** The store is locked just when the row is read back. *)
Lemma post_user_data_can_answer_500_after_storing_witness :
  let req := {| req_headers := []; req_body := sample_body |} in
  let w := started cannot_reread in
  responses (since w (post_user_data req w).2)
  = [(500, error_body "Failed to save user data")]
  /\ files (post_user_data req w).2 !! DB_PATH
     = Some (Database (Some (table_with sample_table sample_body 20))).
Proof.
  cbn zeta.
  apply (post_user_data_can_answer_500_after_storing
           {| req_headers := []; req_body := sample_body |} (started cannot_reread)
           store_client sample_table
           (LibsqlError "SQLITE_BUSY" "database is locked")).
  - reflexivity.
  - vm_compute. reflexivity.
  - vm_compute. reflexivity.
  - reflexivity.
  - reflexivity.
Defined.

(** A body that lacks one of the four fields, or holds one the storage
    cannot bind, changes no file: the insert is rejected as a whole and the
    caller gets the generic 500. *)
Theorem rejected_body_leaves_the_store_untouched (req : request) (w : world) :
  insertable (req_body req) = false ->
  let r := post_user_data req w in
  files r.2 = files w
  /\ responses (since w r.2) = [(500, error_body "Failed to save user data")].
Proof.
  intros Hins r. subst r. unfold insertable in Hins.
  unfold post_user_data, try_catch, mbind, M_bind, destructured.
  destruct (prop_value (req_body req) "budget") as [b|] eqn:Hb.
  2: { split; [done | by read_trace]. }
  destruct (prop_value (req_body req) "city") as [ci|] eqn:Hc.
  2: { by rewrite (prop_value_is_None _ _ "budget" Hc) in Hb. }
  destruct (prop_value (req_body req) "investmentType") as [it|] eqn:Hi.
  2: { by rewrite (prop_value_is_None _ _ "budget" Hi) in Hb. }
  destruct (prop_value (req_body req) "targetAudience") as [ta|] eqn:Ht.
  2: { by rewrite (prop_value_is_None _ _ "budget" Ht) in Hb. }
  unfold mret, M_ret, db_execute.
  destruct (db w) as [c|]; [|split; [done | by read_trace]].
  unfold execute. cbn [env emit set_trace files clock].
  destruct (exec_fault (env w) _) as [e|]; [split; [done | by read_trace]|].
  destruct (default _ _) as [|[tbl|]]; cbn [run_stmt]; rewrite ?Hins;
    (split; [done | by read_trace]).
Qed.

(** An empty object as body. *)
Lemma rejected_body_leaves_the_store_untouched_witness :
  let req := {| req_headers := []; req_body := VObj ∅ |} in
  let w := started calm in
  files (post_user_data req w).2 = files w
  /\ responses (since w (post_user_data req w).2)
     = [(500, error_body "Failed to save user data")].
Proof.
  cbn zeta.
  apply (rejected_body_leaves_the_store_untouched
           {| req_headers := []; req_body := VObj ∅ |} (started calm)).
  vm_compute. reflexivity.
Defined.

(** GET /api/user-data on a store that answers. *)
Lemma get_user_data_run (req : request) (w : world) (c : client) (tbl : table) :
  db w = Some c ->
  files w !! path_of_url (client_url c) = Some (Database (Some tbl)) ->
  exec_fault (env w) SelectAllByCreatedDesc = None ->
  get_user_data req w
  = (Normal tt,
     emit (ERespond 200 (PRows (merge_sort created_desc (tbl_rows tbl))))
       (emit (EExecute SelectAllByCreatedDesc) w)).
Proof.
  intros Hdb Hf Hx.
  unfold get_user_data, try_catch, mbind, M_bind, db_execute. rewrite Hdb.
  unfold execute. cbn [env emit set_trace files clock]. rewrite Hx, Hf. reflexivity.
Qed.

(** POST then GET. After a POST that stored its row, a GET in the world
    the POST left behind (whoever sends it) answers 200 with a listing
    that holds the new row next to all the old ones, newest first. The new
    row is the row as stored: its fields are what the columns made of the
    values sent, which are the values sent for a number as budget and
    strings elsewhere. *)
Theorem posted_row_is_listed
    (req req' : request) (w : world) (c : client) (tbl : table) :
  db w = Some c ->
  files w !! path_of_url (client_url c) = Some (Database (Some tbl)) ->
  insertable (req_body req) = true ->
  exec_fault (env w) (insert_of_body (req_body req)) = None ->
  exec_fault (env w) SelectAllByCreatedDesc = None ->
  let w1 := (post_user_data req w).2 in
  let row := row_of_body tbl (req_body req) (clock w `div` 1000) in
  exists rs, responses (since w1 (get_user_data req' w1).2) = [(200, PRows rs)]
             /\ row ∈ rs
             /\ rs ≡ₚ tbl_rows tbl ++ [row]
             /\ StronglySorted created_desc rs.
Proof.
  intros Hdb Hf Hins Hx Hall w1 row. subst w1 row.
  rewrite (post_user_data_insertable_run req w c tbl Hdb Hf Hins Hx). cbn zeta.
  set (tbl' := table_with tbl (req_body req) (clock w `div` 1000)).
  match goal with
  | |- context [since ?x _] => set (w1 := x)
  end.
  assert (db w1 = Some c) as Hdb1.
  { subst w1. by destruct (exec_fault (env w) (SelectById _)). }
  assert (files w1 !! path_of_url (client_url c) = Some (Database (Some tbl'))) as Hf1.
  { subst w1. destruct (exec_fault (env w) (SelectById _));
      cbn [snd files emit set_trace set_files]; apply lookup_insert_eq. }
  assert (exec_fault (env w1) SelectAllByCreatedDesc = None) as Hall1.
  { subst w1. by destruct (exec_fault (env w) (SelectById _)). }
  rewrite (get_user_data_run req' w1 c tbl' Hdb1 Hf1 Hall1).
  exists (merge_sort created_desc (tbl_rows tbl')).
  split; [by read_trace|].
  assert (merge_sort created_desc (tbl_rows tbl')
          ≡ₚ tbl_rows tbl ++ [row_of_body tbl (req_body req) (clock w `div` 1000)])
    as Hperm by apply merge_sort_Permutation.
  split; [|split; [exact Hperm|apply StronglySorted_merge_sort; apply _]].
  rewrite Hperm. apply elem_of_app. right. by apply list_elem_of_singleton.
Qed.

(** A body with the wrong types posted to the started service: the next
    listing holds its row as converted, before the older row. *)
Lemma posted_row_is_listed_witness :
  let req := {| req_headers := []; req_body := ill_typed_body |} in
  let req' := {| req_headers := []; req_body := VUndefined |} in
  let w1 := (post_user_data req (started calm)).2 in
  let row := {| row_id := 2; row_budget := SqlReal 12; row_city := SqlText "5.0";
                row_investment_type := SqlText "1.0";
                row_target_audience := SqlText "0.0"; row_created_at := 20 |} in
  exists rs, responses (since w1 (get_user_data req' w1).2) = [(200, PRows rs)]
             /\ row ∈ rs
             /\ rs ≡ₚ [sample_row; row]
             /\ StronglySorted created_desc rs.
Proof.
  cbn zeta.
  assert (files (started calm) !! path_of_url (client_url store_client)
          = Some (Database (Some sample_table))) as Hf by (vm_compute; reflexivity).
  assert (insertable ill_typed_body = true) as Hins by (vm_compute; reflexivity).
  exact (posted_row_is_listed
           {| req_headers := []; req_body := ill_typed_body |}
           {| req_headers := []; req_body := VUndefined |}
           (started calm) store_client sample_table eq_refl Hf Hins eq_refl eq_refl).
Defined.

(** GET /api/user-data only reads: whatever the storage does, the world
    after it differs from the world before it in its trace alone (files,
    module-level variables, timers and clock are as they were). *)
Theorem get_user_data_only_reads (req : request) (w : world) :
  (get_user_data req w).2 = set_trace (trace (get_user_data req w).2) w.
Proof.
  unfold get_user_data, try_catch, mbind, M_bind, db_execute, execute.
  destruct (db w) as [c|] eqn:Hdb; [|by destruct w].
  cbn [env emit set_trace files clock].
  destruct (exec_fault (env w) SelectAllByCreatedDesc); [by destruct w|].
  destruct (default _ _) as [|[tbl|]]; by destruct w.
Qed.

(** ** Requests over time *)

Lemma responses_app (l k : list effect) : responses (l ++ k) = responses l ++ responses k.
Proof. apply omap_app. Qed.

(** What a statement does to the world: a promise comes back, the
    statement is logged, and at most the files change. *)
Lemma execute_frame (c : client) (s : stmt) (w : world) :
  exists p fs, execute c s w = (Normal p, set_files fs (emit (EExecute s) w)).
Proof.
  unfold execute. cbn [env emit set_trace files clock].
  destruct (exec_fault (env w) s); [by eexists _, (files w)|].
  destruct (run_stmt _ _ _) as [e|[rs [img|]]]; by eexists _, _.
Qed.

(** Each handler, as the event loop sees it: it completes or stays
    suspended, never throws and never ends the process; it leaves the
    module-level variables and the routes alone and keeps ids
    well-formed; and it writes at most one response. *)
Lemma run_handler_frame (h : handler) (req : request) (w : world) :
  wf w ->
  let r := run_handler h req w in
  (r.1 = Normal tt \/ r.1 = Pending)
  /\ server r.2 = server w /\ db r.2 = db w /\ routes r.2 = routes w
  /\ wf r.2
  /\ exists new, trace r.2 = trace w ++ new /\ (length (responses new) <= 1)%nat.
Proof.
  intros Hwf r. subst r. destruct h; cbn [run_handler].
  - (* POST /api/user-data *)
    unfold post_user_data, try_catch, mbind, M_bind, destructured.
    destruct (prop_value (req_body req) "budget") as [b|] eqn:Hb.
    2: { repeat (split; [by eauto|]). eexists. split; [cbn; by rewrite <- app_assoc|]. cbn. lia. }
    destruct (prop_value (req_body req) "city") as [ci|] eqn:Hc.
    2: { by rewrite (prop_value_is_None _ _ "budget" Hc) in Hb. }
    destruct (prop_value (req_body req) "investmentType") as [it|] eqn:Hi.
    2: { by rewrite (prop_value_is_None _ _ "budget" Hi) in Hb. }
    destruct (prop_value (req_body req) "targetAudience") as [ta|] eqn:Ht.
    2: { by rewrite (prop_value_is_None _ _ "budget" Ht) in Hb. }
    unfold mret, M_ret, db_execute.
    destruct (db w) as [c|] eqn:Hdb.
    2: { repeat (split; [by eauto|]). eexists. split; [cbn; by rewrite <- app_assoc|]. cbn. lia. }
    destruct (execute_frame c (InsertUserData [b; ci; it; ta]) w) as (p & fs & ->).
    destruct p as [result|e]; cbn [await mret M_ret throw db set_files emit set_trace].
    + rewrite Hdb.
      destruct (execute_frame c (SelectById [rs_lastInsertRowid result])
                  (set_files fs (emit (EExecute (InsertUserData [b; ci; it; ta])) w)))
        as (p2 & fs2 & ->).
      destruct p2 as [inserted|e]; cbn [await mret M_ret throw];
        (split; [by left|]; split; [done|]; split; [done|]; split; [done|];
         split; [exact Hwf|]);
        (eexists; split; [cbn; rewrite <- ?app_assoc; cbn; reflexivity | cbn; lia]).
    + split; [by left|]. split; [done|]. split; [done|]. split; [done|].
      split; [exact Hwf|].
      eexists; split; [cbn; rewrite <- ?app_assoc; cbn; reflexivity | cbn; lia].
  - (* GET /api/user-data *)
    unfold get_user_data, try_catch, mbind, M_bind, db_execute.
    destruct (db w) as [c|] eqn:Hdb.
    2: { repeat (split; [by eauto|]). eexists. split; [cbn; by rewrite <- app_assoc|]. cbn. lia. }
    destruct (execute_frame c SelectAllByCreatedDesc w) as (p & fs & ->).
    destruct p as [result|e]; cbn [await mret M_ret throw];
      (split; [by left|]; split; [done|]; split; [done|]; split; [done|];
       split; [exact Hwf|]);
      (eexists; split; [cbn; rewrite <- ?app_assoc; cbn; reflexivity | cbn; lia]).
  - (* POST /api/proxy/ai *)
    split; [|split; [|split; [|split; [|split; [by apply post_proxy_ai_wf|]]]]].
    all: destruct (prop_value (req_body req) "input_value") as [v|] eqn:Hv.
    all: try (unfold post_proxy_ai, try_catch, mbind, M_bind, console_log, get_prop;
              rewrite Hv; cbn;
              first [ by eauto
                    | eexists; split; [by rewrite <- ?app_assoc | cbn; lia] ]).
    all: rewrite (post_proxy_ai_run req w v Hv).
    all: assert (wf (emit (ELog "Attempting to connect to AI API...") w)) as Hwf'
           by exact Hwf.
    all: destruct (fetchWithTimeout_settles AI_URL (ai_options v) (Some 30000) _ Hwf')
           as (time & res & -> & [[r ->]|[e ->]] & _).
    all: cbn [fst snd].
    all: try (destruct (resp_ok r); [destruct (resp_body r)|]).
    all: try destruct (String.eqb _ _).
    all: first [ by eauto
               | eexists; split; [cbn; rewrite <- ?app_assoc; cbn; reflexivity | cbn; lia] ].
Qed.

(** The same for a sequence of requests. *)
Lemma serve_all_frame (reqs : list (handler * request)) :
  forall w : world,
  wf w ->
  let r := serve_all reqs w in
  r.1 = Normal tt
  /\ server r.2 = server w /\ db r.2 = db w /\ routes r.2 = routes w
  /\ wf r.2
  /\ exists new, trace r.2 = trace w ++ new
                 /\ (length (responses new) <= length reqs)%nat.
Proof.
  induction reqs as [|[h req] reqs IH]; intros w Hwf r; subst r.
  - cbn [serve_all mret M_ret fst snd]. repeat (split; [done|]).
    exists []. by rewrite app_nil_r.
  - cbn [serve_all]. unfold mbind, M_bind, serve.
    destruct (run_handler_frame h req w Hwf) as (Hc & Hs & Hd & Hr & Hwf1 & new & Ht & Hn).
    destruct (run_handler h req w) as [c w1]. cbn [fst snd] in Hc, Hs, Hd, Hr, Hwf1, Ht.
    destruct (IH w1 Hwf1) as (Hc2 & Hs2 & Hd2 & Hr2 & Hwf2 & new2 & Ht2 & Hn2).
    destruct Hc as [->| ->]; cbn [fst snd];
      (split; [done|]; split; [congruence|]; split; [congruence|]; split; [congruence|];
       split; [done|]);
      (exists (new ++ new2); split; [by rewrite Ht2, Ht, <- app_assoc|]);
      rewrite responses_app, length_app; cbn [length]; lia.
Qed.

(** Failures while serving stay with their request. Whatever requests
    arrive, for whatever handlers, with whatever bodies, against whatever
    storage and upstream: the process is not ended, nothing is thrown into
    the event loop, [server], [db] and the routes are as they were,
    and there is at most one response per request. *)
Theorem requests_never_end_the_process (reqs : list (handler * request)) (w : world) :
  wf w ->
  let r := serve_all reqs w in
  r.1 = Normal tt
  /\ server r.2 = server w /\ db r.2 = db w /\ routes r.2 = routes w
  /\ wf r.2
  /\ (length (responses (since w r.2)) <= length reqs)%nat.
Proof.
  intros Hwf r. subst r.
  destruct (serve_all_frame reqs w Hwf) as (Hc & Hs & Hd & Hr & Hwf' & new & Ht & Hn).
  repeat (split; [done|]). by rewrite (since_app _ _ _ Ht).
Qed.

(** A listing, a post without body and a proxy call against an upstream
    that hangs, in that order, on the process as it boots. *)
Lemma requests_never_end_the_process_witness :
  let w := boot (with_upstream Hangs) ∅ in
  let reqs := [(GetUserData, {| req_headers := []; req_body := VUndefined |});
               (SaveUserData, {| req_headers := []; req_body := VUndefined |});
               (ProxyAI, {| req_headers := []; req_body := VObj ∅ |})] in
  (serve_all reqs w).1 = Normal tt
  /\ server (serve_all reqs w).2 = server w
  /\ db (serve_all reqs w).2 = db w
  /\ routes (serve_all reqs w).2 = routes w
  /\ wf (serve_all reqs w).2
  /\ (length (responses (since w (serve_all reqs w).2)) <= 3)%nat.
Proof.
  exact (requests_never_end_the_process
           [(GetUserData, {| req_headers := []; req_body := VUndefined |});
            (SaveUserData, {| req_headers := []; req_body := VUndefined |});
            (ProxyAI, {| req_headers := []; req_body := VObj ∅ |})]
           (boot (with_upstream Hangs) ∅) (wf_boot _ _)).
Defined.
